(** * fvrc_calendar: the schedule parser of [schedule_to_gcal_gui.py]

    A shallow embedding of the text-interpretation core of the program
    ([parse_time_range], its local [to_24h], and [parse_schedule]) and of
    what is made of its events ([preview_events], [save_csv],
    [generate_csv]), with the properties of it that the specification
    states and further ones that the code shows.

    Python values are modelled as follows.
    - [str] is a sequence of Unicode code points ([list N]).
    - [int] is [Z].
    - A value that may be [None] is an [option].
    - [datetime] values are records of year, month and day (the program only
      builds midnights, so the time of day is left out).
    - What depends on the machine the program runs on is a parameter: the
      Unicode tables of the runtime, the C library behind [strftime], and
      the answers of the file system to [save_csv].
    - A call that may raise returns [exn + A]; code that also talks to the
      user (the month dialog, the warning box) runs in the monad [M], which
      logs these interactions in order. *)

From Stdlib Require Import List NArith ZArith Bool Lia String Ascii.
From Stdlib Require DecimalPos.
Import ListNotations.

Local Open Scope Z_scope.

(** ** Strings *)

Definition str := list N.

(** An ASCII literal as a [str] (one code point per character). *)
Definition lit (s : string) : str :=
  map N_of_ascii (list_ascii_of_string s).
Arguments lit s%_string.

Definition is_empty (s : str) : bool :=
  match s with [] => true | _ :: _ => false end.

Fixpoint str_eqb (a b : str) : bool :=
  match a, b with
  | [], [] => true
  | x :: a', y :: b' => N.eqb x y && str_eqb a' b'
  | _, _ => false
  end.

(** Code points the source names. *)
Definition colon : N := 58.     (* ':' *)
Definition hyphen : N := 45.    (* '-' *)
Definition star : N := 42.      (* '*' *)
Definition slash : N := 47.     (* '/' *)
Definition zero : N := 48.      (* '0' *)
Definition endash : N := 8211.  (* U+2013, the en dash *)
Definition bullet : N := 8226.  (* U+2022, the bullet *)
Definition LF : N := 10.
Definition CR : N := 13.

(** [str.isspace] of one character, which is also [\s] of [re] on [str]
    patterns: the white space of CPython's Unicode database. *)
Definition is_space (c : N) : bool :=
  (((9 <=? c) && (c <=? 13)) || ((28 <=? c) && (c <=? 32))
   || (c =? 133) || (c =? 160) || (c =? 5760)
   || ((8192 <=? c) && (c <=? 8202))
   || (c =? 8232) || (c =? 8233) || (c =? 8239) || (c =? 8287)
   || (c =? 12288))%N.

(** The line boundaries of [str.splitlines]. *)
Definition is_linebreak (c : N) : bool :=
  (((10 <=? c) && (c <=? 13)) || ((28 <=? c) && (c <=? 30))
   || (c =? 133) || (c =? 8232) || (c =? 8233))%N.

(** The decimal digits and the alphanumerics outside ASCII come from the
    Unicode tables of the Python runtime, which are not part of the
    repository: they are an interface here.  The laws are facts of every
    Unicode version: a decimal digit stands for 0..9, and white space is
    neither a digit nor alphanumeric. *)
Class UnicodeData := {
  decimal_of : N -> option N;
  alnum_of : N -> bool;
  decimal_of_lt : forall c v, decimal_of c = Some v -> (v < 10)%N;
  decimal_of_space : forall c, is_space c = true -> decimal_of c = None;
  alnum_of_space : forall c, is_space c = true -> alnum_of c = false
}.

(** The tables of a runtime that knows ASCII only. *)
Definition ascii_only : UnicodeData.
Proof.
  refine {| decimal_of := fun _ => None; alnum_of := fun _ => false |};
    intros; congruence.
Defined.

Section Chars.
Context {U : UnicodeData}.

(** The value of a decimal digit (what [int] makes of it), if it is one. *)
Definition digit_value (c : N) : option N :=
  if (c <? 128)%N
  then if ((48 <=? c) && (c <=? 57))%N then Some (c - 48)%N else None
  else decimal_of c.

(** [\d] *)
Definition is_digit (c : N) : bool :=
  match digit_value c with Some _ => true | None => false end.

(** [\w] *)
Definition is_word (c : N) : bool :=
  if (c <? 128)%N
  then (((48 <=? c) && (c <=? 57)) || ((65 <=? c) && (c <=? 90))
        || ((97 <=? c) && (c <=? 122)) || (c =? 95))%N
  else alnum_of c.

End Chars.

(** [str.lower] on the ASCII letters.  The program lowers only the am/pm
    marker the pattern captured, and no character outside ASCII lowers to
    [a], [m] or [p]. *)
Definition lower_char (c : N) : N :=
  if ((65 <=? c) && (c <=? 90))%N then (c + 32)%N else c.
Definition lower (s : str) : str := map lower_char s.

Fixpoint lstrip (s : str) : str :=
  match s with
  | c :: s' => if is_space c then lstrip s' else s
  | [] => []
  end.

Definition rstrip (s : str) : str := rev (lstrip (rev s)).

(** [s.strip()] *)
Definition strip (s : str) : str := rstrip (lstrip s).

(** [s.startswith(c)] for a one-character [c] *)
Definition startswith (c : N) (s : str) : bool :=
  match s with x :: _ => N.eqb x c | [] => false end.

(** [s.replace(a, b)] for one-character [a] and [b] *)
Definition replace (a b : N) (s : str) : str :=
  map (fun c => if N.eqb c a then b else c) s.

(** [c in s] *)
Definition contains (c : N) (s : str) : bool := existsb (N.eqb c) s.

(** [s.split(c)] for a one-character separator *)
Fixpoint split_on (c : N) (cur : str) (s : str) : list str :=
  match s with
  | [] => [cur]
  | x :: s' => if N.eqb x c then cur :: split_on c [] s'
               else split_on c (cur ++ [x]) s'
  end.

(** [s.splitlines()]: the text is cut at every line boundary, CR LF counting
    as one, and a boundary at the very end opens no further line. *)
Fixpoint splitlines_from (cur : str) (s : str) : list str :=
  match s with
  | [] => if is_empty cur then [] else [cur]
  | c :: s' =>
      if N.eqb c CR then
        match s' with
        | c' :: s'' => if N.eqb c' LF then cur :: splitlines_from [] s''
                       else cur :: splitlines_from [] s'
        | [] => [cur]
        end
      else if is_linebreak c then cur :: splitlines_from [] s'
      else splitlines_from (cur ++ [c]) s'
  end.

Definition splitlines (s : str) : list str := splitlines_from [] s.

(** ** Exceptions and user interaction *)

Inductive exn :=
| IndexError | ValueError | TypeError | OverflowError
| OSError | UnicodeEncodeError.

(** A calendar date: what the program keeps of a [datetime]. *)
Record date := mkdate { year_of : Z; month_of : Z; day_of : Z }.

(** What the program shows to, or asks from, the user while it parses.
    [ShowWarning month day year corrected] is the box titled "Date corrected"
    whose text names the invalid [month/day/year] and the [corrected] date. *)
Inductive effect :=
| AskInteger
| ShowWarning (month day year : Z) (corrected : date).

(** A computation logs its interactions and then returns or raises. *)
Definition M (A : Type) : Type := (list effect * (exn + A))%type.

Definition ret {A} (a : A) : M A := ([], inr a).
Definition raise {A} (e : exn) : M A := ([], inl e).
Definition lift {A} (r : exn + A) : M A := ([], r).
Definition emit (e : effect) : M unit := ([e], inr tt).

Definition bind {A B} (m : M A) (f : A -> M B) : M B :=
  match m with
  | (l, inl e) => (l, inl e)
  | (l, inr a) => let (l', r) := f a in (l ++ l', r)
  end.

Notation "x <- m ;; k" := (bind m (fun x => k))
  (at level 61, m at next level, right associativity).
Notation "m ;;; k" := (bind m (fun _ => k))
  (at level 61, right associativity).

(** [for x in xs: s = body(s, x)], an exception ending the loop. *)
Fixpoint for_each {A S} (body : S -> A -> M S) (xs : list A) (s : S) : M S :=
  match xs with
  | [] => ret s
  | x :: xs' => s' <- body s x ;; for_each body xs' s'
  end.

(** ** Dates *)

Definition is_leap (y : Z) : bool :=
  (y mod 4 =? 0) && (negb (y mod 100 =? 0) || (y mod 400 =? 0)).

Definition days_in_month (y m : Z) : Z :=
  if m =? 2 then (if is_leap y then 29 else 28)
  else if (m =? 4) || (m =? 6) || (m =? 9) || (m =? 11) then 30
  else 31.

Definition MINYEAR : Z := 1.
Definition MAXYEAR : Z := 9999.

(** The numbers that fit the C type [int]. *)
Definition c_int (n : Z) : bool :=
  (-2147483648 <=? n) && (n <=? 2147483647).

(** [datetime(year, month, day)].  The arguments are first read as C
    integers, in their order: [OverflowError] for a number that is none,
    [TypeError] for a month that is [None].  Then [ValueError] when a field
    is out of range. *)
Definition datetime (year : Z) (month : option Z) (day : Z) : exn + date :=
  if negb (c_int year) then inl OverflowError
  else
    match month with
    | None => inl TypeError
    | Some m =>
        if negb (c_int m && c_int day) then inl OverflowError
        else if (MINYEAR <=? year) && (year <=? MAXYEAR)
                && (1 <=? m) && (m <=? 12)
                && (1 <=? day) && (day <=? days_in_month year m)
        then inr (mkdate year m day)
        else inl ValueError
    end.

(** [d + timedelta(days=1)] *)
Definition add_one_day (d : date) : exn + date :=
  let (y, m, dd) := d in
  if dd <? days_in_month y m then inr (mkdate y m (dd + 1))
  else if m <? 12 then inr (mkdate y (m + 1) 1)
  else if y <? MAXYEAR then inr (mkdate (y + 1) 1 1)
  else inl OverflowError.

(** ** Numbers and text *)

Fixpoint uint_digits (u : Decimal.uint) : str :=
  match u with
  | Decimal.Nil => []
  | Decimal.D0 u => 48%N :: uint_digits u
  | Decimal.D1 u => 49%N :: uint_digits u
  | Decimal.D2 u => 50%N :: uint_digits u
  | Decimal.D3 u => 51%N :: uint_digits u
  | Decimal.D4 u => 52%N :: uint_digits u
  | Decimal.D5 u => 53%N :: uint_digits u
  | Decimal.D6 u => 54%N :: uint_digits u
  | Decimal.D7 u => 55%N :: uint_digits u
  | Decimal.D8 u => 56%N :: uint_digits u
  | Decimal.D9 u => 57%N :: uint_digits u
  end.

(** [str(n)] for a natural number *)
Definition decimal_str (n : N) : str := uint_digits (N.to_uint n).

(** [s.zfill(w)] for a digit string *)
Definition zfill (w : nat) (s : str) : str :=
  repeat zero (w - List.length s) ++ s.

(** [f"{n:0wd}"]: decimal, filled with zeros up to width [w], the sign
    first. *)
Definition format_d (w : nat) (n : Z) : str :=
  if n <? 0 then hyphen :: zfill (w - 1) (decimal_str (Z.to_N (- n)))
  else zfill w (decimal_str (Z.to_N n)).

(** [strftime] leaves [%Y] to the C library of the platform, which
    either fills a year below 1000 with zeros up to four digits or writes
    it as it is (glibc). *)
Class Platform := { pads_year : bool }.

(** The C library of Linux. *)
Definition glibc : Platform := {| pads_year := false |}.

(** [d.strftime("%m/%d/%Y")] *)
Definition strftime_mdY {libc : Platform} (d : date) : str :=
  format_d 2 (month_of d) ++ [slash] ++ format_d 2 (day_of d)
  ++ [slash] ++ format_d (if pads_year then 4 else 1) (year_of d).

Section Int.
Context {U : UnicodeData}.

Fixpoint digits_value (acc : N) (s : str) : option N :=
  match s with
  | [] => Some acc
  | c :: s' =>
      match digit_value c with
      | Some v => digits_value (acc * 10 + v) s'
      | None => None
      end
  end.

(** The most digits that [int] converts (the default of CPython since
    version 3.11); leading zeros count. *)
Definition int_max_str_digits : Z := 4300.

(** [int(s)] on strings of decimal digits, which is all the program gives
    it; any other string is refused with the [ValueError] that [int] has
    for a malformed literal, and so is a string of too many digits. *)
Definition py_int (s : str) : exn + Z :=
  match s with
  | [] => inl ValueError
  | _ :: _ =>
      match digits_value 0 s with
      | Some n =>
          if int_max_str_digits <? Z.of_nat (List.length s)
          then inl ValueError
          else inr (Z.of_N n)
      | None => inl ValueError
      end
  end.

End Int.

(** ** The patterns

    Each pattern of the program is written as the scanner that [re] runs for
    it.  In all of them every choice is settled by the next character:
    a greedy repetition is followed either by something that may match the
    empty string or by a character its class excludes, so the first,
    greediest path is the one [re] returns, and when that path fails no
    shorter repetition succeeds either. *)

Section Patterns.
Context {U : UnicodeData}.

(** [\d{1,2}]: the digits matched and the rest *)
Definition digits_1_2 (s : str) : option (str * str) :=
  match s with
  | a :: s1 =>
      if is_digit a then
        match s1 with
        | b :: s2 => if is_digit b then Some ([a; b], s2) else Some ([a], s1)
        | [] => Some ([a], s1)
        end
      else None
  | [] => None
  end.

(** [\d{0,2}]: the rest *)
Definition digits_0_2 (s : str) : str :=
  match digits_1_2 s with
  | Some (_, rest) => rest
  | None => s
  end.

(** [(:\d{2})?]: the group, if it took part, and the rest *)
Definition opt_minutes (s : str) : option str * str :=
  match s with
  | c :: a :: b :: rest =>
      if N.eqb c colon && is_digit a && is_digit b
      then (Some [c; a; b], rest) else (None, s)
  | _ => (None, s)
  end.

(** [(am|pm)?] under [re.IGNORECASE] *)
Definition opt_ampm (s : str) : option str * str :=
  match s with
  | a :: m :: rest =>
      if (N.eqb (lower_char a) 97 || N.eqb (lower_char a) 112)
         && N.eqb (lower_char m) 109
      then (Some [a; m], rest) else (None, s)
  | _ => (None, s)
  end.

(** [-?] *)
Definition opt_hyphen (s : str) : str :=
  match s with
  | c :: rest => if N.eqb c hyphen then rest else s
  | [] => s
  end.

Definition or_empty (o : option str) : str :=
  match o with Some s => s | None => [] end.

(** [(\d{1,2}(:\d{2})?)\s*(am|pm)?], one side of a time range: the outer
    group, the minutes group, the marker group and the rest. *)
Definition time_side (s : str)
  : option (str * option str * option str * str) :=
  match digits_1_2 s with
  | None => None
  | Some (h, s1) =>
      let (mm, s2) := opt_minutes s1 in
      let (ap, s3) := opt_ampm (lstrip s2) in
      Some (h ++ or_empty mm, mm, ap, s3)
  end.

(** The six groups of [time_pattern]; the first always takes part. *)
Record time_groups := {
  g_start : str;
  g_start_min : option str;
  g_start_ampm : option str;
  g_end : option str;
  g_end_min : option str;
  g_end_ampm : option str
}.

(** [re.match(time_pattern, s, re.IGNORECASE)] with
    [(\d{1,2}(:\d{2})?)\s*(am|pm)?\s*(?:-\s*(\d{1,2}(:\d{2})?)\s*(am|pm)?)?]:
    the groups of the match and the text after it. *)
Definition match_time_pattern (s : str) : option (time_groups * str) :=
  match time_side s with
  | None => None
  | Some (start, smin, sap, s1) =>
      let start_only :=
        ({| g_start := start; g_start_min := smin; g_start_ampm := sap;
            g_end := None; g_end_min := None; g_end_ampm := None |},
         lstrip s1) in
      match lstrip s1 with
      | c :: s2 =>
          if N.eqb c hyphen then
            match time_side (lstrip s2) with
            | Some (e, emin, eap, rest) =>
                Some ({| g_start := start; g_start_min := smin;
                         g_start_ampm := sap; g_end := Some e;
                         g_end_min := emin; g_end_ampm := eap |}, rest)
            | None => Some start_only
            end
          else Some start_only
      | [] => Some start_only
      end
  end.

(** [re.sub(r'^(\d{1,2}(:\d{2})?\s*(am|pm)?\s*-?\s*\d{0,2}(:\d{2})?\s*(am|pm)?)\s*',
    '', item, flags=re.IGNORECASE)]: the pattern can match at the start of
    the string only, and what follows the match is kept. *)
Definition sub_time_prefix (item : str) : str :=
  match time_side item with
  | None => item
  | Some (_, _, _, s1) =>
      let s2 := opt_hyphen (lstrip s1) in
      let s3 := digits_0_2 (lstrip s2) in
      let (_, s4) := opt_minutes s3 in
      let (_, s5) := opt_ampm (lstrip s4) in
      lstrip s5
  end.

Definition first_is (p : N -> bool) (s : str) : bool :=
  match s with c :: _ => p c | [] => false end.

Fixpoint skip_word (s : str) : str :=
  match s with
  | c :: s' => if is_word c then skip_word s' else s
  | [] => []
  end.

(** [.*]: up to the end of the string or the first newline *)
Fixpoint dot_star (s : str) : str :=
  match s with
  | c :: s' => if N.eqb c LF then [] else c :: dot_star s'
  | [] => []
  end.

(** [re.match] of the header pattern on a line: the group [(\d{1,2})], then
    [\s+\w+], then a second group holding [.*], the rest of the line. *)
Definition match_day_header (line : str) : option (str * str) :=
  match digits_1_2 line with
  | None => None
  | Some (d, s1) =>
      if first_is is_space s1 then
        let s2 := lstrip s1 in
        if first_is is_word s2 then Some (d, dot_star (skip_word s2))
        else None
      else None
  end.

End Patterns.

(** The month names of [(Jan|Feb|Mar|Apr|May|Jun|Jul|Aug|Sep|Oct|Nov|Dec)],
    in the order of the alternatives. *)
Definition month_abbrs : list str :=
  [lit "Jan"; lit "Feb"; lit "Mar"; lit "Apr"; lit "May"; lit "Jun";
   lit "Jul"; lit "Aug"; lit "Sep"; lit "Oct"; lit "Nov"; lit "Dec"].

Fixpoint is_prefix (p s : str) : bool :=
  match p, s with
  | [], _ => true
  | x :: p', y :: s' => N.eqb x y && is_prefix p' s'
  | _ :: _, [] => false
  end.

(** [re.match] of the month pattern: the abbreviation the string starts
    with, letter case as written. *)
Definition match_month (s : str) : option str :=
  find (fun abbr => is_prefix abbr s) month_abbrs.

Fixpoint index_of (x : str) (l : list str) (i : Z) : option Z :=
  match l with
  | [] => None
  | y :: l' => if str_eqb (lower x) (lower y) then Some i
               else index_of x l' (i + 1)
  end.

(** [datetime.strptime(abbr, "%b").month] *)
Definition strptime_b_month (abbr : str) : exn + Z :=
  match index_of abbr month_abbrs 1 with
  | Some m => inr m
  | None => inl ValueError
  end.

(** [re.split] of a line at a bullet or at two or more white-space
    characters in a row.  [gap] says that the scan is inside such a run,
    whose first character has already been taken as a separator. *)
Fixpoint re_split_from (gap : bool) (cur : str) (s : str) : list str :=
  match s with
  | [] => [cur]
  | c :: s' =>
      if gap && is_space c then re_split_from true cur s'
      else if N.eqb c bullet then cur :: re_split_from false [] s'
      else if is_space c && first_is is_space s'
           then cur :: re_split_from true [] s'
      else re_split_from false (cur ++ [c]) s'
  end.

Definition re_split (line : str) : list str := re_split_from false [] line.

(** ** [parse_time_range] *)

Section Parser.
Context {U : UnicodeData} {libc : Platform}.

(** The hour arithmetic of [to_24h] (lines 34-39); a marker that is [None]
    or empty counts as no marker. *)
Definition convert_hour (h : Z) (ampm : option str) : Z :=
  match ampm with
  | None => h
  | Some a =>
      if is_empty a then h
      else
        let ampm := lower a in
        let h := if str_eqb ampm (lit "pm") && negb (h =? 12) then h + 12
                 else h in
        if str_eqb ampm (lit "am") && (h =? 12) then 0 else h
  end.

(** The local function [to_24h] of [parse_time_range] (lines 29-40). *)
Definition to_24h (t : str) (ampm : option str) : exn + str :=
  let t := strip t in
  let t := if contains colon t then t else t ++ lit ":00" in
  match split_on colon [] t with
  | [hs; ms] =>
      match py_int hs with
      | inl e => inl e
      | inr h =>
          match py_int ms with
          | inl e => inl e
          | inr m =>
              inr (format_d 2 (convert_hour h ampm) ++ [colon]
                   ++ format_d 2 m)
          end
      end
  | _ => inl ValueError
  end.

(** [parse_time_range(text)] (lines 21-43): the start and end times in
    24-hour form, either of which may be [None]. *)
Definition parse_time_range (text : str)
  : exn + (option str * option str) :=
  let text := replace endash hyphen text in
  match match_time_pattern (strip text) with
  | None => inr (None, None)
  | Some (g, _) =>
      match to_24h (g_start g) (g_start_ampm g) with
      | inl e => inl e
      | inr start24 =>
          match g_end g with
          | Some e =>
              if is_empty e then inr (Some start24, None)
              else
                match to_24h e (g_end_ampm g) with
                | inl x => inl x
                | inr end24 => inr (Some start24, Some end24)
                end
          | None => inr (Some start24, None)
          end
      end
  end.

(** ** [parse_schedule] *)

(** One row of the result; the fields are the keys of the dictionary. *)
Record event := {
  Subject : str;
  StartDate : str;
  StartTime : str;
  EndDate : str;
  EndTime : str;
  AllDayEvent : str;
  Description : str;
  Location : str
}.

(** The dictionary built for one item of a line (lines 106-120: the body
    of the inner loop, after the item was stripped and found non-empty). *)
Definition make_event (current_date : date) (item : str) : exn + event :=
  match parse_time_range item with
  | inl e => inl e
  | inr (start_time, end_time) =>
      let desc := strip (sub_time_prefix item) in
      let desc := if is_empty desc then item else desc in
      inr {| Subject := desc;
             StartDate := strftime_mdY current_date;
             StartTime := or_empty start_time;
             EndDate := if is_empty (or_empty end_time) then []
                        else strftime_mdY current_date;
             EndTime := or_empty end_time;
             AllDayEvent := if is_empty (or_empty start_time)
                            then lit "True" else lit "False";
             Description := [];
             Location := [] |}
  end.

(** One round of the inner loop (lines 102-120): the event of the item is
    appended, unless the item is empty once stripped. *)
Definition add_item (current_date : date) (events : list event)
  (item : str) : M (list event) :=
  let item := strip item in
  if is_empty item then ret events
  else e <- lift (make_event current_date item) ;; ret (events ++ [e]).

(** The variables of [parse_schedule] that live across lines. *)
Record pstate := {
  events : list event;
  current_date : option date;
  last_day : option Z
}.

Definition init_state : pstate :=
  {| events := []; current_date := None; last_day := None |}.

(** The month of a day header (lines 72-78): [start_month], advanced by
    one (13 becoming 1) when [last_day] is set, not 0, and above the day.
    Adding one to a month that is [None] is a [TypeError]. *)
Definition header_month (start_month : option Z) (last_day : option Z)
  (day : Z) : exn + option Z :=
  match last_day with
  | Some l =>
      if negb (l =? 0) && (day <? l) then
        match start_month with
        | None => inl TypeError
        | Some m => let m := m + 1 in inr (Some (if 12 <? m then 1 else m))
        end
      else inr start_month
  | None => inr start_month
  end.

(** The [try] block (lines 81-89): the date of the header, or after a
    [ValueError] the day after the 28th, announced in a warning box.  The
    handler is entered with a month that is a number ([datetime] has no
    [ValueError] for [None]); its own [datetime] and addition may raise,
    and any other exception of the first [datetime] goes through. *)
Definition header_date (year : Z) (month : option Z) (day : Z) : M date :=
  match datetime year month day with
  | inr d => ret d
  | inl ValueError =>
      d28 <- lift (datetime year month 28) ;;
      corrected_date <- lift (add_one_day d28) ;;
      match month with
      | Some m => emit (ShowWarning m day year corrected_date)
      | None => raise TypeError
      end ;;;
      ret corrected_date
  | inl e => raise e
  end.

(** The lines after the header test (lines 97-120): split the line into
    items and add their events, unless no date is known yet. *)
Definition add_line (st : pstate) (line : str) : M pstate :=
  match current_date st with
  | None => ret st
  | Some d =>
      evs <- for_each (add_item d) (re_split line) (events st) ;;
      ret {| events := evs; current_date := current_date st;
             last_day := last_day st |}
  end.

(** The body of the loop over the lines (lines 62-120). *)
Definition loop_body (year : Z) (start_month : option Z) (st : pstate)
  (line : str) : M pstate :=
  let line := strip line in
  if is_empty line || startswith star line then ret st
  else
    match match_day_header line with
    | Some (g1, g2) =>
        day <- lift (py_int g1) ;;
        let trailing := strip g2 in
        month <- lift (header_month start_month (last_day st) day) ;;
        d <- header_date year month day ;;
        let st := {| events := events st; current_date := Some d;
                     last_day := Some day |} in
        if is_empty trailing then ret st else add_line st trailing
    | None => add_line st line
    end.

(** The month of the schedule (lines 55-60): read off the first line, or
    asked from the user, whose answer is [answer] ([None] when the dialog
    is cancelled). *)
Definition detect_month (answer : option Z) (first : str) : M (option Z) :=
  match match_month (strip first) with
  | Some abbr => m <- lift (strptime_b_month abbr) ;; ret (Some m)
  | None => emit AskInteger ;;; ret answer
  end.

(** [parse_schedule(text, year)] (lines 48-121); [lines[0]] of an empty
    list is an [IndexError]. *)
Definition parse_schedule (answer : option Z) (text : str) (year : Z)
  : M (list event) :=
  let lines := splitlines text in
  match lines with
  | [] => raise IndexError
  | first :: _ =>
      start_month <- detect_month answer first ;;
      st <- for_each (loop_body year start_month) lines init_state ;;
      ret (events st)
  end.

End Parser.

(** ** The export: [preview_events], [save_csv] and [generate_csv] *)

Definition comma : N := 44.        (* ',' *)
Definition dquote : N := 34.       (* the double quote *)
Definition space : N := 32.        (* ' ' *)

(** The line of the preview for one event (lines 155-157). *)
Definition preview_line (e : event) : str :=
  StartDate e ++ [space] ++ StartTime e ++ [hyphen] ++ EndTime e
  ++ [space] ++ Subject e ++ [LF].

(** The text put into the preview window (lines 154-158). *)
Definition preview_text (events : list event) : str :=
  List.concat (map preview_line events).

(** The columns of the file (lines 131-132). *)
Definition fieldnames : list str :=
  [lit "Subject"; lit "Start Date"; lit "Start Time"; lit "End Date";
   lit "End Time"; lit "All Day Event"; lit "Description"; lit "Location"].

(** The values of an event in the order of the columns. *)
Definition event_values (e : event) : list str :=
  [Subject e; StartDate e; StartTime e; EndDate e; EndTime e;
   AllDayEvent e; Description e; Location e].

(** The characters for which [csv.writer], with the dialect it has by
    default, puts a field in quotes. *)
Definition csv_special (c : N) : bool :=
  N.eqb c comma || N.eqb c dquote || N.eqb c CR || N.eqb c LF.

(** One field as [csv.writer] writes it: as it is, or in quotes with every
    quote doubled. *)
Definition csv_field (s : str) : str :=
  if existsb csv_special s
  then dquote :: flat_map (fun c => if N.eqb c dquote then [dquote; dquote]
                                    else [c]) s ++ [dquote]
  else s.

Fixpoint join_fields (fields : list str) : str :=
  match fields with
  | [] => []
  | [f] => f
  | f :: rest => f ++ comma :: join_fields rest
  end.

(** One row of two fields or more, ended by CR LF. *)
Definition csv_row (values : list str) : str :=
  join_fields (map csv_field values) ++ [CR; LF].

(** What [save_csv] writes into the file (lines 133-136): the header and
    one row for every event. *)
Definition csv_text (events : list event) : str :=
  csv_row fieldnames
  ++ List.concat (map (fun e => csv_row (event_values e)) events).

(** What [generate_csv] shows and does.  [Parsing] wraps the interactions
    of [parse_schedule].  Of [save_csv], [MakeDirs] is the folder of the
    exports made sure of, [CreateFile] the file opened for writing, which
    creates or empties it, and [WriteCsv content] the rows written and the
    file closed, which then holds [content]; the folder and the path
    depend on the machine and are left out. *)
Inductive gui_effect :=
| Parsing (e : effect)
| ShowError (message : str)
| PreviewEvents (text : str)
| MakeDirs
| CreateFile
| WriteCsv (content : str)
| ShowInfo
| OpenFile.

(** The calls of [save_csv] that leave the program: [os.makedirs], [open],
    the writing of the rows up to the closing of the file,
    [messagebox.showinfo] and [open_file]. *)
Inductive os_call := Makedirs | Open | Write | Showinfo | Startfile.

(** What the machine answers to such a call: the exception that the call
    raises, if it raises one. *)
Definition machine := os_call -> option exn.

(** A code point that UTF-8 encodes: any up to U+10FFFF but the
    surrogates. *)
Definition is_scalar (c : N) : bool :=
  ((c <? 55296) || ((57343 <? c) && (c <=? 1114111)))%N.

(** A part of the program that shows and does such things, and then
    returns or raises. *)
Definition G (A : Type) : Type := (list gui_effect * (exn + A))%type.

(** One call: what it does is done, unless the machine raises. *)
Definition call (m : machine) (c : os_call) (done : gui_effect) : G unit :=
  match m c with
  | Some e => ([], inl e)
  | None => ([done], inr tt)
  end.

(** [a] and then [b], an exception of [a] ending the run. *)
Definition and_then (a b : G unit) : G unit :=
  match a with
  | (l, inl e) => (l, inl e)
  | (l, inr _) => let (l', r) := b in (l ++ l', r)
  end.

(** The [with] block (lines 133-136).  The rows are encoded as they are
    written: a character that UTF-8 does not encode raises
    [UnicodeEncodeError], unless the machine refuses the data, which it
    is given at the latest when the file is closed.  What the file holds
    after a failure is not recorded. *)
Definition write_rows (m : machine) (content : str) : G unit :=
  match m Write with
  | Some e => ([], inl e)
  | None =>
      if forallb is_scalar content then ([WriteCsv content], inr tt)
      else ([], inl UnicodeEncodeError)
  end.

(** [save_csv(events)] (lines 126-138) *)
Definition save_csv (m : machine) (events : list event) : G unit :=
  and_then (call m Makedirs MakeDirs)
    (and_then (call m Open CreateFile)
       (and_then (write_rows m (csv_text events))
          (and_then (call m Showinfo ShowInfo)
             (call m Startfile OpenFile)))).

(** [not events] for a list *)
Definition is_nil {A} (l : list A) : bool :=
  match l with [] => true | _ :: _ => false end.

Section Gui.
Context {U : UnicodeData} {libc : Platform}.

(** [str.isdigit], a table of the Python runtime like the others. *)
Variable isdigit : str -> bool.

(** [generate_csv()] (lines 195-208) on the text of the text box and the
    text of the year box; [answer] is the answer to the month dialog, [ok]
    the button pressed in the preview and [m] the machine.  The boxes of
    Tk themselves are taken to return. *)
Definition generate_csv (m : machine) (text year : str) (answer : option Z)
  (ok : bool) : G unit :=
  if negb (isdigit year)
  then ([ShowError (lit "Year must be a number")], inr tt)
  else
    match py_int year with
    | inl e => ([], inl e)
    | inr y =>
        match parse_schedule answer text y with
        | (log, inl e) => (map Parsing log, inl e)
        | (log, inr events) =>
            if is_nil events
            then (map Parsing log ++ [ShowError (lit "No events found")],
                  inr tt)
            else if ok
            then and_then
                   (map Parsing log ++ [PreviewEvents (preview_text events)],
                    inr tt)
                   (save_csv m events)
            else (map Parsing log ++ [PreviewEvents (preview_text events)],
                  inr tt)
        end
    end.

End Gui.

(** * The vocabulary of the properties *)

(** [r] is the end of [s]. *)
Definition suffix_of (r s : str) : Prop := exists p, s = p ++ r.

(** The state after a header whose date is [d]. *)
Definition after_header (st : pstate) (d : date) (day : Z) : pstate :=
  {| events := events st; current_date := Some d; last_day := Some day |}.

(** The day after the 28th: the 29th, or the first of March when February
    has 28 days. *)
Definition day_after_28th (year month : Z) : date :=
  if (month =? 2) && negb (is_leap year) then mkdate year 3 1
  else mkdate year month 29.

(** The month after [m], December being followed by January. *)
Definition next_month (m : Z) : Z := if 12 <? m + 1 then 1 else m + 1.

(** The first of the month after [m]: what the specification expects for
    an invalid day. *)
Definition first_of_next_month (y m : Z) : date :=
  if m =? 12 then mkdate (y + 1) 1 1 else mkdate y (m + 1) 1.

(** The interactions that are warnings. *)
Definition is_warning (e : effect) : Prop :=
  match e with ShowWarning _ _ _ _ => True | AskInteger => False end.

(** A time that [parse_time_range] may return: the hour printed with two
    digits at least, a colon, and the minutes printed with two digits. *)
Definition printed_time (t : str) (h m : Z) : Prop :=
  t = format_d 2 h ++ [colon] ++ format_d 2 m.

(** A time printed from an hour up to 111 and minutes up to 99. *)
Definition wide_time (t : str) : Prop :=
  exists h m, 0 <= h <= 111 /\ 0 <= m <= 99 /\ printed_time t h m.

(** A time of day on the 24-hour clock, as [HH:MM]. *)
Definition is_clock_time (t : str) : bool :=
  match t with
  | [h1; h2; c; m1; m2] =>
      ((zero <=? h1) && (h1 <=? zero + 9) && (zero <=? h2) && (h2 <=? zero + 9)
       && (c =? colon)
       && (zero <=? m1) && (m1 <=? zero + 9) && (zero <=? m2) && (m2 <=? zero + 9)
       && ((h1 - zero) * 10 + (h2 - zero) <=? 23)
       && ((m1 - zero) * 10 + (m2 - zero) <=? 59))%N
  | _ => false
  end.

(** The text a Tk text widget hands over: every line ends with a newline. *)
Definition text_of_lines (ls : list str) : str :=
  List.concat (map (fun l => l ++ [LF]) ls).

(** The first line that is not empty once stripped: where the
    specification looks for the month. *)
Definition first_nonempty_line (lines : list str) : option str :=
  find (fun l => negb (is_empty (strip l))) lines.

Section Vocabulary.
Context {U : UnicodeData} {libc : Platform}.

(** What [\d{1,2}] matched reads as a number from 0 to 99. *)
Inductive two_digits : str -> Z -> Prop :=
| one_digit a va :
    is_digit a = true -> digit_value a = Some va ->
    two_digits [a] (Z.of_N va)
| both_digits a b va vb :
    is_digit a = true -> is_digit b = true ->
    digit_value a = Some va -> digit_value b = Some vb ->
    two_digits [a; b] (Z.of_N (va * 10 + vb)).

(** The text of a time: its hour digits, then possibly a colon and two
    minute digits; with the numbers it reads as. *)
Inductive time_text : str -> Z -> Z -> Prop :=
| hour_only h n : two_digits h n -> time_text h n 0
| hour_minutes h n a b m :
    two_digits h n -> two_digits [a; b] m ->
    time_text (h ++ [colon; a; b]) n m.

(** [line] is a day header with day number [day], followed on the same
    line by [trailing]. *)
Definition day_header (line : str) (day : Z) (trailing : str) : Prop :=
  exists g1 g2,
    match_day_header (strip line) = Some (g1, g2)
    /\ py_int g1 = inr day /\ trailing = strip g2.

(** [e] was built by [make_event] from a stripped, non-empty item. *)
Definition made_from_item (e : event) : Prop :=
  exists d item,
    is_empty item = false /\ strip item = item /\ make_event d item = inr e.

(** [e] was built from a stripped, non-empty item without bullet, all of
    whose characters have the property [Q]. *)
Definition made_from_piece (Q : N -> Prop) (e : event) : Prop :=
  exists d item,
    Forall Q item /\ ~ In bullet item /\ is_empty item = false
    /\ strip item = item /\ make_event d item = inr e.

End Vocabulary.

(** The schedule of the specification's end-to-end scenario. *)
Definition january : str :=
  text_of_lines [lit "Jan 2026"; lit "23 Mon 10am-11am Practice";
                 lit "24 Tue  Game 7pm"].

Definition practice : event :=
  {| Subject := lit "Practice"; StartDate := lit "01/23/2026";
     StartTime := lit "10:00"; EndDate := lit "01/23/2026";
     EndTime := lit "11:00"; AllDayEvent := lit "False";
     Description := []; Location := [] |}.

Definition game : event :=
  {| Subject := lit "Game 7pm"; StartDate := lit "01/24/2026";
     StartTime := []; EndDate := []; EndTime := [];
     AllDayEvent := lit "True"; Description := []; Location := [] |}.

(** The state right after a first header dated [d]. *)
Definition seen (d : date) : pstate :=
  after_header init_state d (day_of d).

(** A line that the loop passes over: blank, or a comment. *)
Definition skipped (line : str) : bool :=
  is_empty (strip line) || startswith star (strip line).

(** A date that [datetime] accepts. *)
Definition valid_date (d : date) : Prop :=
  datetime (year_of d) (Some (month_of d)) (day_of d) = inr d.

(** No character of [s] is a line boundary. *)
Definition no_break (s : str) : Prop :=
  Forall (fun c => is_linebreak c = false) s.

(** No character of [s] makes [csv.writer] quote. *)
Definition csv_plain (s : str) : Prop :=
  Forall (fun c => csv_special c = false) s.

(** How often [c] occurs in [s]. *)
Definition count_char (c : N) (s : str) : nat :=
  List.length (filter (N.eqb c) s).

(** [a] is the start of [b]. *)
Definition prefix_of {A} (a b : list A) : Prop := exists rest, b = a ++ rest.


(** An event of a schedule for [year]: its start date is a date of that
    year that [datetime] accepts, its end date is empty or the start date,
    and its description and location are empty. *)
Definition dated_in {libc : Platform} (year : Z) (e : event) : Prop :=
  exists d,
    valid_date d /\ year_of d = year /\ StartDate e = strftime_mdY d
    /\ (EndDate e = [] \/ EndDate e = StartDate e)
    /\ Description e = [] /\ Location e = [].

(** What the loop keeps about its state: the current date, when there is
    one, is a valid date of the year, and so are the dates of the events. *)
Definition state_dated {libc : Platform} (year : Z) (st : pstate) : Prop :=
  (forall d, current_date st = Some d -> valid_date d /\ year_of d = year)
  /\ Forall (dated_in year) (events st).

(** A slash, a digit or a colon (the codes from 47 to 58): the
    characters of the dates and times of an event. *)
Definition date_char (c : N) : bool := ((47 <=? c) && (c <=? 58))%N.

(** [s] is made of such characters. *)
Definition date_text (s : str) : Prop :=
  Forall (fun c => date_char c = true) s.

(** [s] is made of characters that UTF-8 encodes. *)
Definition encodable (s : str) : Prop :=
  Forall (fun c => is_scalar c = true) s.

(** A machine on which every call goes through. *)
Definition willing : machine := fun _ => None.

(** [str.isdigit] of a runtime that knows ASCII only. *)
Definition ascii_isdigit (s : str) : bool :=
  negb (is_empty s) && forallb (fun c => (48 <=? c)%N && (c <=? 57)%N) s.

(** * Properties *)

(** ** The monad and the loops *)

Lemma bind_returns {A B} (m : M A) (f : A -> M B) l b :
  bind m f = (l, inr b) ->
  exists l1 a l2, m = (l1, inr a) /\ f a = (l2, inr b) /\ l = l1 ++ l2.
Proof.
  unfold bind. destruct m as [l1 [e | a]]; [discriminate |].
  destruct (f a) as [l2 r] eqn:Hf. intros H. inversion H; subst.
  exists l1, a, l2. auto.
Qed.

Lemma bind_log {A B} (m : M A) (f : A -> M B) (Q : effect -> Prop) :
  Forall Q (fst m) ->
  (forall a, Forall Q (fst (f a))) ->
  Forall Q (fst (bind m f)).
Proof.
  intros Hm Hf. unfold bind. destruct m as [l1 [e | a]]; simpl in *; auto.
  specialize (Hf a). destruct (f a) as [l2 r]. simpl in *.
  apply Forall_app. auto.
Qed.

(** A loop keeps what each of its rounds keeps. *)
Lemma for_each_invariant {A S} (body : S -> A -> M S) (P : S -> Prop) :
  (forall s x l s', body s x = (l, inr s') -> P s -> P s') ->
  forall xs s l s', for_each body xs s = (l, inr s') -> P s -> P s'.
Proof.
  intros Hbody. induction xs as [| x xs IH]; simpl; intros s l s' H Hs.
  - inversion H; subst; assumption.
  - apply bind_returns in H. destruct H as (l1 & a & l2 & H1 & H2 & _).
    eauto.
Qed.

Lemma for_each_log {A S} (body : S -> A -> M S) (Q : effect -> Prop) :
  (forall s x, Forall Q (fst (body s x))) ->
  forall xs s, Forall Q (fst (for_each body xs s)).
Proof.
  intros Hbody. induction xs as [| x xs IH]; simpl; intros s.
  - constructor.
  - apply bind_log; auto.
Qed.

(** A loop whose rounds neither raise nor interact does neither. *)
Lemma for_each_quiet {A S} (body : S -> A -> M S) :
  (forall s x, exists s', body s x = ([], inr s')) ->
  forall xs s, exists s', for_each body xs s = ([], inr s').
Proof.
  intros Hbody. induction xs as [| x xs IH]; simpl; intros s.
  - exists s. reflexivity.
  - destruct (Hbody s x) as [s1 H1]. rewrite H1. simpl.
    destruct (IH s1) as [s2 H2]. rewrite H2. exists s2. reflexivity.
Qed.

(** ** White space *)

Lemma lstrip_idem s : lstrip (lstrip s) = lstrip s.
Proof.
  induction s as [| c s IH]; simpl; auto.
  destruct (is_space c) eqn:E; auto. simpl. rewrite E. reflexivity.
Qed.

Lemma lstrip_keep c s : is_space c = false -> lstrip (c :: s) = c :: s.
Proof. intros H. simpl. rewrite H. reflexivity. Qed.

Lemma lstrip_snoc s c :
  is_space c = false -> lstrip (s ++ [c]) = lstrip s ++ [c].
Proof.
  intros H. induction s as [| x s IH]; simpl.
  - rewrite H. reflexivity.
  - destruct (is_space x); auto.
Qed.

Lemma lstrip_head s :
  lstrip s = [] \/ exists c s', lstrip s = c :: s' /\ is_space c = false.
Proof.
  induction s as [| c s IH]; simpl; auto.
  destruct (is_space c) eqn:E; auto. right. eauto.
Qed.

Lemma rstrip_cons c s :
  is_space c = false -> rstrip (c :: s) = c :: rstrip s.
Proof.
  intros H. unfold rstrip. simpl. rewrite lstrip_snoc by assumption.
  rewrite rev_app_distr. reflexivity.
Qed.

Lemma rstrip_idem s : rstrip (rstrip s) = rstrip s.
Proof. unfold rstrip. rewrite rev_involutive, lstrip_idem. reflexivity. Qed.

Lemma strip_keep c s : is_space c = false -> strip (c :: s) = c :: rstrip s.
Proof.
  intros H. unfold strip. rewrite lstrip_keep by assumption.
  apply rstrip_cons. assumption.
Qed.

(** Stripping twice is stripping once. *)
Lemma strip_idem s : strip (strip s) = strip s.
Proof.
  destruct (lstrip_head s) as [E | (c & s' & E & Hc)].
  - assert (H : strip s = []) by (unfold strip; rewrite E; reflexivity).
    rewrite H. reflexivity.
  - assert (H : strip s = c :: rstrip s')
      by (unfold strip; rewrite E; apply rstrip_cons; assumption).
    rewrite H, strip_keep by assumption. rewrite rstrip_idem. reflexivity.
Qed.

Lemma replace_absent a b s : contains a s = false -> replace a b s = s.
Proof.
  unfold contains, replace. induction s as [| c s IH]; simpl; auto.
  intros H. apply orb_false_elim in H. destruct H as [H1 H2].
  rewrite N.eqb_sym, H1, IH by assumption. reflexivity.
Qed.

(** ** Suffixes: what a scanner leaves is the end of what it was given *)

Lemma suffix_refl s : suffix_of s s.
Proof. exists []. reflexivity. Qed.

Lemma suffix_trans a b c : suffix_of a b -> suffix_of b c -> suffix_of a c.
Proof.
  intros [p Hp] [q Hq]. exists (q ++ p). subst. rewrite app_assoc.
  reflexivity.
Qed.

Lemma suffix_cons a c s : suffix_of a s -> suffix_of a (c :: s).
Proof. intros [p Hp]. exists (c :: p). subst. reflexivity. Qed.

Lemma suffix_length r s : suffix_of r s -> (List.length r <= List.length s)%nat.
Proof. intros [p ->]. rewrite length_app. lia. Qed.

Lemma lstrip_suffix s : suffix_of (lstrip s) s.
Proof.
  induction s as [| c s IH]; simpl.
  - apply suffix_refl.
  - destruct (is_space c); [apply suffix_cons; assumption | apply suffix_refl].
Qed.

Create HintDb suffix.
#[local] Hint Resolve suffix_refl suffix_cons lstrip_suffix : suffix.

Section Facts.
Context {U : UnicodeData} {libc : Platform}.

(** ** Digits *)

Lemma digit_value_lt c v : digit_value c = Some v -> (v < 10)%N.
Proof.
  unfold digit_value. destruct (c <? 128)%N.
  - destruct ((48 <=? c) && (c <=? 57))%N eqn:E; [| discriminate].
    intros H. inversion H; subst. apply andb_prop in E. destruct E as [E1 E2].
    apply N.leb_le in E1, E2. lia.
  - apply decimal_of_lt.
Qed.

Lemma digit_not_space c : is_digit c = true -> is_space c = false.
Proof.
  unfold is_digit, digit_value. intros H.
  destruct (is_space c) eqn:Es; [| reflexivity]. exfalso.
  destruct (c <? 128)%N eqn:E.
  - destruct ((48 <=? c) && (c <=? 57))%N eqn:E1; [| discriminate].
    apply andb_prop in E1. destruct E1 as [E1 E2].
    apply N.leb_le in E1, E2. unfold is_space in Es.
    repeat (apply orb_prop in Es; destruct Es as [Es | Es]);
      repeat match goal with
             | H : (_ && _)%bool = true |- _ =>
                 apply andb_prop in H; destruct H
             | H : (_ <=? _)%N = true |- _ => apply N.leb_le in H
             | H : (_ =? _)%N = true |- _ => apply N.eqb_eq in H
             end; lia.
  - rewrite (decimal_of_space c Es) in H. discriminate.
Qed.

Lemma digit_not_colon c : is_digit c = true -> N.eqb c colon = false.
Proof.
  unfold is_digit, digit_value, colon. intros H.
  destruct (N.eqb_spec c 58) as [-> | ]; [| reflexivity].
  simpl in H. discriminate.
Qed.

Lemma digit_has_value c :
  is_digit c = true -> exists v, digit_value c = Some v /\ (v < 10)%N.
Proof.
  unfold is_digit. destruct (digit_value c) as [v |] eqn:E; [| discriminate].
  intros _. exists v. split; [reflexivity |]. eapply digit_value_lt; eauto.
Qed.

Lemma two_digits_range s n : two_digits s n -> 0 <= n <= 99.
Proof.
  intros H. destruct H;
    repeat match goal with
           | H : digit_value _ = Some _ |- _ => apply digit_value_lt in H
           end; lia.
Qed.

Lemma two_digits_int s n : two_digits s n -> py_int s = inr n.
Proof.
  intros H. destruct H as [a va _ Ha | a b va vb _ _ Ha Hb];
    unfold py_int; simpl; rewrite ?Ha, ?Hb; simpl; reflexivity.
Qed.

Lemma digits_1_2_shape s h rest :
  digits_1_2 s = Some (h, rest) ->
  (exists n, two_digits h n) /\ s = h ++ rest.
Proof.
  unfold digits_1_2. destruct s as [| a s1]; [discriminate |].
  destruct (is_digit a) eqn:Ea; [| discriminate].
  destruct (digit_has_value a Ea) as (va & Hva & _).
  destruct s1 as [| b s2].
  - intros H. inversion H; subst. split; [| reflexivity].
    eexists. apply one_digit; eauto.
  - destruct (is_digit b) eqn:Eb; intros H; inversion H; subst.
    + destruct (digit_has_value b Eb) as (vb & Hvb & _).
      split; [| reflexivity]. eexists. apply both_digits; eauto.
    + split; [| reflexivity]. eexists. apply one_digit; eauto.
Qed.

Lemma opt_minutes_shape s mm rest :
  opt_minutes s = (mm, rest) ->
  (mm = None /\ rest = s) \/
  (exists a b, mm = Some [colon; a; b] /\ s = colon :: a :: b :: rest
               /\ is_digit a = true /\ is_digit b = true).
Proof.
  unfold opt_minutes. destruct s as [| c [| a [| b r]]];
    try (intros H; inversion H; subst; auto; fail).
  destruct (N.eqb c colon && is_digit a && is_digit b) eqn:E;
    intros H; inversion H; subst; auto.
  right. apply andb_prop in E. destruct E as [E Eb].
  apply andb_prop in E. destruct E as [Ec Ea]. apply N.eqb_eq in Ec. subst.
  exists a, b. auto.
Qed.

Lemma opt_ampm_suffix s ap rest : opt_ampm s = (ap, rest) -> suffix_of rest s.
Proof.
  unfold opt_ampm. destruct s as [| a [| m r]];
    try (intros H; inversion H; subst; apply suffix_refl).
  destruct (_ && _); intros H; inversion H; subst; auto with suffix.
Qed.

Lemma opt_minutes_suffix s mm rest :
  opt_minutes s = (mm, rest) -> suffix_of rest s.
Proof.
  intros H. apply opt_minutes_shape in H.
  destruct H as [[_ ->] | (a & b & _ & -> & _)]; auto with suffix.
Qed.

Lemma opt_hyphen_suffix s : suffix_of (opt_hyphen s) s.
Proof.
  unfold opt_hyphen. destruct s as [| c r]; auto with suffix.
  destruct (N.eqb c hyphen); auto with suffix.
Qed.

Lemma digits_1_2_suffix s h rest :
  digits_1_2 s = Some (h, rest) -> suffix_of rest s.
Proof. intros H. apply digits_1_2_shape in H. destruct H as [_ ->]. eexists; eauto. Qed.

Lemma digits_0_2_suffix s : suffix_of (digits_0_2 s) s.
Proof.
  unfold digits_0_2. destruct (digits_1_2 s) as [[h r] |] eqn:E.
  - eapply digits_1_2_suffix; eauto.
  - apply suffix_refl.
Qed.

End Facts.

(** ** [to_24h] on what the pattern captures *)

Lemma rstrip_no_space s :
  Forall (fun c => is_space c = false) s -> rstrip s = s.
Proof.
  induction 1 as [| c s Hc _ IH]; [reflexivity |].
  rewrite rstrip_cons, IH by assumption. reflexivity.
Qed.

Lemma strip_no_space s :
  Forall (fun c => is_space c = false) s -> strip s = s.
Proof.
  intros H. destruct H as [| c s Hc Hs]; [reflexivity |].
  rewrite strip_keep, rstrip_no_space by assumption. reflexivity.
Qed.

Lemma split_on_last c cur s :
  Forall (fun x => N.eqb x c = false) s -> split_on c cur s = [cur ++ s].
Proof.
  intros H. revert cur. induction H as [| x s Hx _ IH]; intros cur; simpl.
  - rewrite app_nil_r. reflexivity.
  - rewrite Hx, IH, <- app_assoc. reflexivity.
Qed.

Lemma split_on_first c cur s t :
  Forall (fun x => N.eqb x c = false) s ->
  split_on c cur (s ++ c :: t) = (cur ++ s) :: split_on c [] t.
Proof.
  intros H. revert cur. induction H as [| x s Hx _ IH]; intros cur; simpl.
  - rewrite N.eqb_refl, app_nil_r. reflexivity.
  - rewrite Hx, IH, <- app_assoc. reflexivity.
Qed.

Lemma contains_absent c s :
  Forall (fun x => N.eqb x c = false) s -> contains c s = false.
Proof.
  unfold contains. induction 1 as [| x s Hx _ IH]; simpl; auto.
  rewrite N.eqb_sym, Hx, IH. reflexivity.
Qed.

Lemma contains_present c s t : contains c (s ++ c :: t) = true.
Proof.
  unfold contains. rewrite existsb_app. simpl. rewrite N.eqb_refl.
  apply orb_true_iff. right. reflexivity.
Qed.

Section Conversion.
Context {U : UnicodeData} {libc : Platform}.

Lemma two_digits_chars h n :
  two_digits h n ->
  Forall (fun c => is_space c = false) h
  /\ Forall (fun c => N.eqb c colon = false) h.
Proof.
  intros H. destruct H; split;
    repeat (apply Forall_cons || apply Forall_nil);
    solve [apply digit_not_space; assumption
          | apply digit_not_colon; assumption].
Qed.

Lemma time_text_range t h m : time_text t h m -> 0 <= h <= 99 /\ 0 <= m <= 99.
Proof.
  intros H. destruct H;
    repeat match goal with
           | H : two_digits _ _ |- _ => apply two_digits_range in H
           end; lia.
Qed.

(** [to_24h] never raises on such a text: it prints the converted hour and
    the minutes, each with two digits at least. *)
Lemma to_24h_time_text t h m ampm :
  time_text t h m ->
  to_24h t ampm
  = inr (format_d 2 (convert_hour h ampm) ++ [colon] ++ format_d 2 m).
Proof.
  intros H. unfold to_24h. destruct H as [hs n Hn | hs n a b m Hn Hm].
  - destruct (two_digits_chars _ _ Hn) as [Hsp Hco].
    rewrite (strip_no_space _ Hsp), (contains_absent _ _ Hco).
    change (lit ":00") with (colon :: lit "00").
    rewrite (split_on_first _ _ _ _ Hco). simpl app.
    rewrite (two_digits_int _ _ Hn). reflexivity.
  - destruct (two_digits_chars _ _ Hn) as [Hsp Hco].
    destruct (two_digits_chars _ _ Hm) as [Hsp' Hco'].
    rewrite strip_no_space
      by (apply Forall_app; split; [assumption | constructor; [reflexivity | assumption]]).
    rewrite contains_present, (split_on_first _ _ _ _ Hco).
    rewrite (split_on_last _ _ _ Hco'). simpl app.
    rewrite (two_digits_int _ _ Hn), (two_digits_int _ _ Hm). reflexivity.
Qed.

Lemma time_side_shape s g mm ap rest :
  time_side s = Some (g, mm, ap, rest) ->
  (exists h m, time_text g h m) /\ suffix_of rest s
  /\ exists c s', s = c :: s' /\ suffix_of rest s'.
Proof.
  unfold time_side. destruct (digits_1_2 s) as [[hs s1] |] eqn:Ed;
    [| discriminate].
  destruct (opt_minutes s1) as [mm' s2] eqn:Em.
  destruct (opt_ampm (lstrip s2)) as [ap' s3] eqn:Ea.
  intros H. inversion H; subst. clear H.
  pose proof (digits_1_2_shape _ _ _ Ed) as [[n Hn] Hs].
  pose proof (opt_minutes_suffix _ _ _ Em) as Hs2.
  pose proof (opt_ampm_suffix _ _ _ Ea) as Hs3.
  assert (Hrest : suffix_of rest s1).
  { eapply suffix_trans; [eassumption |].
    eapply suffix_trans; [apply lstrip_suffix | assumption]. }
  split; [| split].
  - apply opt_minutes_shape in Em.
    destruct Em as [[-> _] | (a & b & -> & _ & Ha & Hb)]; simpl.
    + rewrite app_nil_r. exists n, 0. constructor. assumption.
    + destruct (digit_has_value a Ha) as (va & Hva & _).
      destruct (digit_has_value b Hb) as (vb & Hvb & _).
      eexists _, _. apply hour_minutes; [eassumption |].
      apply both_digits; eassumption.
  - eapply suffix_trans; [eassumption |]. subst s. eexists; eauto.
  - subst s. destruct Hn as [a va | a b va vb]; simpl.
    + exists a, s1. auto.
    + exists a, (b :: s1). split; [reflexivity |].
      apply suffix_cons. assumption.
Qed.

Lemma convert_hour_range h ampm :
  0 <= h <= 99 -> 0 <= convert_hour h ampm <= 111.
Proof.
  intros Hh. unfold convert_hour. destruct ampm as [a |]; [| lia].
  destruct (is_empty a); [lia |].
  destruct (str_eqb (lower a) (lit "pm") && negb (h =? 12));
    destruct (str_eqb (lower a) (lit "am") && (_ =? 12)); lia.
Qed.

End Conversion.

Section TimeRange.
Context {U : UnicodeData} {libc : Platform}.

Lemma time_text_not_empty t h m : time_text t h m -> is_empty t = false.
Proof.
  intros H. destruct H as [hs n Hn | hs n a b m Hn _];
    destruct Hn; reflexivity.
Qed.

Lemma match_time_pattern_shape s g rest :
  match_time_pattern s = Some (g, rest) ->
  (exists h m, time_text (g_start g) h m)
  /\ (forall e, g_end g = Some e -> exists h m, time_text e h m).
Proof.
  unfold match_time_pattern.
  destruct (time_side s) as [[[[start smin] sap] s1] |] eqn:Es;
    [| discriminate].
  apply time_side_shape in Es. destruct Es as [Hstart _].
  destruct (lstrip s1) as [| c s2];
    [intros H; inversion H; subst; simpl; split; [assumption | discriminate] |].
  destruct (N.eqb c hyphen);
    [| intros H; inversion H; subst; simpl; split; [assumption | discriminate]].
  destruct (time_side (lstrip s2)) as [[[[e emin] eap] r] |] eqn:Ee;
    intros H; inversion H; subst; simpl; split; try assumption;
    try discriminate.
  intros e' He'. inversion He'; subst.
  apply time_side_shape in Ee. destruct Ee as [He _]. assumption.
Qed.

(** [parse_time_range] on a text in which the pattern matches: it does
    not raise, the start is the start group through [to_24h] with the
    start marker, and the end, if its group took part, is the end group
    through [to_24h] with the end marker. *)
Lemma parse_time_range_matched text g rest :
  match_time_pattern (strip (replace endash hyphen text)) = Some (g, rest) ->
  exists h m,
    time_text (g_start g) h m
    /\ exists end24,
        parse_time_range text
        = inr (Some (format_d 2 (convert_hour h (g_start_ampm g))
                     ++ [colon] ++ format_d 2 m), end24)
        /\ match g_end g with
           | None => end24 = None
           | Some e =>
               exists h' m',
                 time_text e h' m'
                 /\ end24
                    = Some (format_d 2 (convert_hour h' (g_end_ampm g))
                            ++ [colon] ++ format_d 2 m')
           end.
Proof.
  intros Hm. pose proof (match_time_pattern_shape _ _ _ Hm) as [Hs He].
  destruct Hs as (h & m & Hs). exists h, m. split; [assumption |].
  unfold parse_time_range. rewrite Hm.
  rewrite (to_24h_time_text _ _ _ _ Hs).
  destruct (g_end g) as [e |] eqn:Ee.
  - destruct (He e eq_refl) as (h' & m' & Ht).
    rewrite (time_text_not_empty _ _ _ Ht), (to_24h_time_text _ _ _ _ Ht).
    eexists. split; [reflexivity |]. exists h', m'. auto.
  - eexists. split; reflexivity.
Qed.

Lemma parse_time_range_total text :
  exists a b,
    parse_time_range text = inr (a, b)
    /\ (forall t, a = Some t -> wide_time t)
    /\ (forall t, b = Some t -> wide_time t).
Proof.
  destruct (match_time_pattern (strip (replace endash hyphen text)))
    as [[g rest] |] eqn:Hm.
  - destruct (parse_time_range_matched _ _ _ Hm)
      as (h & m & Hs & end24 & Hp & He).
    apply time_text_range in Hs. destruct Hs as [Hh Hmin].
    exists (Some (format_d 2 (convert_hour h (g_start_ampm g))
                  ++ [colon] ++ format_d 2 m)), end24.
    split; [assumption |]. split.
    + intros t Ht. inversion Ht; subst.
      exists (convert_hour h (g_start_ampm g)), m.
      split; [apply convert_hour_range; assumption |].
      split; [assumption | reflexivity].
    + intros t Ht. subst end24. destruct (g_end g) as [e |]; [| discriminate].
      destruct He as (h' & m' & Hs' & Heq). inversion Heq; subst.
      apply time_text_range in Hs'. destruct Hs' as [Hh' Hmin'].
      exists (convert_hour h' (g_end_ampm g)), m'.
      split; [apply convert_hour_range; assumption |].
      split; [assumption | reflexivity].
  - exists None, None. unfold parse_time_range. rewrite Hm.
    split; [reflexivity |]. split; discriminate.
Qed.

(** ** Events *)

Lemma format_d_not_empty w n : is_empty (format_d (S w) n) = false.
Proof.
  unfold format_d. destruct (n <? 0); [reflexivity |].
  unfold zfill, decimal_str.
  assert (H : uint_digits (N.to_uint (Z.to_N n)) <> []).
  { destruct (Z.to_N n) as [| p]; [discriminate |]. simpl.
    pose proof (DecimalPos.Unsigned.to_uint_nonnil p) as Hp.
    destruct (Pos.to_uint p); try discriminate. congruence. }
  destruct (uint_digits _) as [| c r]; [congruence |].
  destruct (S w - _)%nat; reflexivity.
Qed.

Lemma strftime_not_empty d : is_empty (strftime_mdY d) = false.
Proof.
  unfold strftime_mdY. pose proof (format_d_not_empty 1 (month_of d)) as H.
  destruct (format_d 2 (month_of d)); [discriminate | reflexivity].
Qed.

Lemma wide_time_not_empty t : wide_time t -> is_empty t = false.
Proof.
  intros (h & m & _ & _ & ->). pose proof (format_d_not_empty 1 h) as H.
  destruct (format_d 2 h); [discriminate | reflexivity].
Qed.

(** [make_event] never raises. *)
Lemma make_event_total d item : exists e, make_event d item = inr e.
Proof.
  unfold make_event.
  destruct (parse_time_range_total item) as (a & b & -> & _).
  eexists. reflexivity.
Qed.

Lemma add_item_quiet d evs item :
  exists evs', add_item d evs item = ([], inr evs').
Proof.
  unfold add_item. destruct (is_empty (strip item)); [eexists; reflexivity |].
  destruct (make_event_total d (strip item)) as [e ->].
  eexists. reflexivity.
Qed.

Lemma add_line_quiet st line :
  exists st', add_line st line = ([], inr st')
              /\ current_date st' = current_date st
              /\ last_day st' = last_day st.
Proof.
  unfold add_line. destruct (current_date st) as [d |] eqn:Ed.
  - destruct (for_each_quiet (add_item d) (add_item_quiet d)
                (re_split line) (events st)) as [evs ->].
    eexists. split; [reflexivity |]. simpl. auto.
  - exists st. auto.
Qed.

End TimeRange.

(** ** Day headers *)

Lemma bind_pure {A B} (a : A) (f : A -> M B) : bind ([], inr a) f = f a.
Proof. unfold bind. destruct (f a). reflexivity. Qed.

Section Headers.
Context {U : UnicodeData} {libc : Platform}.

Lemma match_day_header_digits l g1 g2 :
  match_day_header l = Some (g1, g2) ->
  (exists n, two_digits g1 n) /\ is_empty l || startswith star l = false.
Proof.
  unfold match_day_header.
  destruct (digits_1_2 l) as [[d s1] |] eqn:Ed; [| discriminate].
  destruct (first_is is_space s1); [| discriminate].
  destruct (first_is is_word (lstrip s1)); [| discriminate].
  intros H. inversion H; subst.
  pose proof (digits_1_2_shape _ _ _ Ed) as [[n Hn] Hl].
  split; [exists n; assumption |].
  subst l. destruct Hn as [a va Ha _ | a b va vb Ha _ _ _]; simpl;
    (destruct (N.eqb_spec a star) as [-> | ]; [discriminate Ha | reflexivity]).
Qed.

(** The day number of a header is between 0 and 99. *)
Lemma day_header_range line day trailing :
  day_header line day trailing -> 0 <= day <= 99.
Proof.
  intros (g1 & g2 & Hm & Hi & _).
  apply match_day_header_digits in Hm. destruct Hm as [[n Hn] _].
  rewrite (two_digits_int _ _ Hn) in Hi. inversion Hi; subst.
  eapply two_digits_range; eauto.
Qed.

(** What the loop does with a header line. *)
Lemma loop_body_header year start_month st line day trailing :
  day_header line day trailing ->
  loop_body year start_month st line
  = (month <- lift (header_month start_month (last_day st) day) ;;
     d <- header_date year month day ;;
     if is_empty trailing then ret (after_header st d day)
     else add_line (after_header st d day) trailing).
Proof.
  intros (g1 & g2 & Hm & Hi & ->). unfold loop_body.
  destruct (match_day_header_digits _ _ _ Hm) as [_ ->].
  rewrite Hm, Hi. unfold lift at 1. rewrite bind_pure. reflexivity.
Qed.

Lemma datetime_valid year m day d :
  datetime year (Some m) day = inr d ->
  d = mkdate year m day
  /\ 1 <= year <= 9999 /\ 1 <= m <= 12 /\ 1 <= day <= days_in_month year m.
Proof.
  unfold datetime, MINYEAR, MAXYEAR.
  destruct (negb (c_int year)); [discriminate |].
  destruct (negb (c_int m && c_int day)); [discriminate |].
  match goal with
  | |- (if ?b then _ else _) = _ -> _ => destruct b eqn:E
  end; [| discriminate].
  intros H. inversion H; subst.
  repeat (apply andb_prop in E; destruct E as [E ?]).
  repeat match goal with
         | H : (_ <=? _) = true |- _ => apply Z.leb_le in H
         end.
  repeat split; assumption.
Qed.

Lemma c_int_range n : -2147483648 <= n <= 2147483647 -> c_int n = true.
Proof.
  intros H. unfold c_int. apply andb_true_intro. split; apply Z.leb_le; lia.
Qed.

(** On numbers that are C integers [datetime] only checks the ranges. *)
Lemma datetime_small year m day :
  c_int year = true -> c_int m = true -> c_int day = true ->
  datetime year (Some m) day
  = if (1 <=? year) && (year <=? 9999) && (1 <=? m) && (m <=? 12)
       && (1 <=? day) && (day <=? days_in_month year m)
    then inr (mkdate year m day)
    else inl ValueError.
Proof. intros Hy Hm Hd. unfold datetime. rewrite Hy, Hm, Hd. reflexivity. Qed.

Lemma days_in_month_28 y m : 28 <= days_in_month y m.
Proof.
  unfold days_in_month. destruct (m =? 2).
  - destruct (is_leap y); lia.
  - destruct (_ || _); lia.
Qed.

Lemma days_in_month_31 y m : days_in_month y m <= 31.
Proof.
  unfold days_in_month. destruct (m =? 2).
  - destruct (is_leap y); lia.
  - destruct (_ || _); lia.
Qed.

Lemma datetime_in_range year m day :
  1 <= year <= 9999 -> 1 <= m <= 12 -> 1 <= day <= days_in_month year m ->
  datetime year (Some m) day = inr (mkdate year m day).
Proof.
  intros Hy Hm Hd. pose proof (days_in_month_31 year m).
  rewrite datetime_small by (apply c_int_range; lia).
  replace (1 <=? year) with true by (symmetry; apply Z.leb_le; lia).
  replace (year <=? 9999) with true by (symmetry; apply Z.leb_le; lia).
  replace (1 <=? m) with true by (symmetry; apply Z.leb_le; lia).
  replace (m <=? 12) with true by (symmetry; apply Z.leb_le; lia).
  replace (1 <=? day) with true by (symmetry; apply Z.leb_le; lia).
  replace (day <=? days_in_month year m) with true
    by (symmetry; apply Z.leb_le; lia).
  reflexivity.
Qed.

Lemma datetime_28 year m :
  1 <= year <= 9999 -> 1 <= m <= 12 ->
  datetime year (Some m) 28 = inr (mkdate year m 28).
Proof.
  intros Hy Hm. pose proof (days_in_month_28 year m).
  apply datetime_in_range; lia.
Qed.

(** A day that its month does not have, written with two digits at most. *)
Lemma datetime_out_of_month year m day :
  1 <= year <= 9999 -> 1 <= m <= 12 -> 0 <= day <= 99 ->
  day < 1 \/ days_in_month year m < day ->
  datetime year (Some m) day = inl ValueError.
Proof.
  intros Hy Hm Hday Hd.
  rewrite datetime_small by (apply c_int_range; lia).
  match goal with
  | |- (if ?b then _ else _) = _ => destruct b eqn:E
  end; [| reflexivity].
  exfalso.
  repeat (apply andb_prop in E; destruct E as [E ?]).
  repeat match goal with
         | H : (_ <=? _) = true |- _ => apply Z.leb_le in H
         end.
  lia.
Qed.

(** A year or a month that [datetime] does not have, whatever the day. *)
Lemma datetime_out_of_range year m day :
  c_int year = true -> c_int m = true -> 0 <= day <= 99 ->
  year < 1 \/ 9999 < year \/ m < 1 \/ 12 < m ->
  datetime year (Some m) day = inl ValueError.
Proof.
  intros Hy Hm Hday Hd.
  rewrite datetime_small by (try assumption; apply c_int_range; lia).
  match goal with
  | |- (if ?b then _ else _) = _ => destruct b eqn:E
  end; [| reflexivity].
  exfalso.
  repeat (apply andb_prop in E; destruct E as [E ?]).
  repeat match goal with
         | H : (_ <=? _) = true |- _ => apply Z.leb_le in H
         end.
  lia.
Qed.

Lemma add_one_day_28 year m d28 :
  datetime year (Some m) 28 = inr d28 ->
  add_one_day d28 = inr (day_after_28th year m).
Proof.
  intros H. apply datetime_valid in H. destruct H as (-> & _ & Hm & _).
  unfold add_one_day, day_after_28th, days_in_month.
  destruct (m =? 2) eqn:E2.
  - apply Z.eqb_eq in E2. subst. destruct (is_leap year); reflexivity.
  - simpl. destruct ((m =? 4) || (m =? 6) || (m =? 9) || (m =? 11));
      reflexivity.
Qed.

(** The [except] branch: an invalid day in a month that has a 28th. *)
Lemma header_date_corrected year m day d28 :
  datetime year (Some m) day = inl ValueError ->
  datetime year (Some m) 28 = inr d28 ->
  header_date year (Some m) day
  = ([ShowWarning m day year (day_after_28th year m)],
     inr (day_after_28th year m)).
Proof.
  intros Hbad H28. unfold header_date.
  rewrite Hbad, H28. unfold lift. rewrite bind_pure.
  rewrite (add_one_day_28 _ _ _ H28), bind_pure. reflexivity.
Qed.

Lemma header_date_valid year m day d :
  datetime year (Some m) day = inr d ->
  header_date year (Some m) day = ([], inr (mkdate year m day)).
Proof.
  intros H. unfold header_date. rewrite H.
  apply datetime_valid in H. destruct H as [-> _]. reflexivity.
Qed.

(** Without a month there is no date. *)
Lemma header_date_no_month year day :
  exists e, header_date year None day = ([], inl e).
Proof.
  unfold header_date, datetime.
  destruct (negb (c_int year)); eexists; reflexivity.
Qed.

(** Whatever date a header gets, it lies in the year that was given. *)
Lemma header_date_year year month day l d :
  header_date year month day = (l, inr d) -> year_of d = year.
Proof.
  destruct month as [m |];
    [| destruct (header_date_no_month year day) as [e ->]; discriminate].
  unfold header_date.
  destruct (datetime year (Some m) day) as [[] | d0] eqn:Ed;
    try discriminate.
  - destruct (datetime year (Some m) 28) as [e | d28] eqn:E28;
      [discriminate |].
    unfold lift. rewrite bind_pure, (add_one_day_28 _ _ _ E28), bind_pure.
    simpl. intros H. inversion H; subst.
    unfold day_after_28th. destruct (_ && _); reflexivity.
  - intros H. inversion H; subst.
    apply datetime_valid in Ed. destruct Ed as [-> _]. reflexivity.
Qed.

Lemma header_date_log year month day :
  Forall is_warning (fst (header_date year month day)).
Proof.
  unfold header_date. destruct (datetime year month day) as [[] | d];
    try (unfold ret, raise; constructor).
  apply bind_log; [constructor |]. intros d28.
  apply bind_log; [constructor |]. intros c.
  apply bind_log; [| constructor].
  destruct month as [m |]; simpl; repeat constructor.
Qed.

Lemma add_line_log st line : fst (add_line st line) = [].
Proof. destruct (add_line_quiet st line) as (st' & -> & _). reflexivity. Qed.

Lemma loop_body_log year start_month st line :
  Forall is_warning (fst (loop_body year start_month st line)).
Proof.
  unfold loop_body. destruct (_ || _); [constructor |].
  destruct (match_day_header (strip line)) as [[g1 g2] |].
  - apply bind_log; [destruct (py_int g1); constructor |]. intros day.
    apply bind_log; [destruct (header_month _ _ _); constructor |].
    intros month. apply bind_log; [apply header_date_log |]. intros d.
    destruct (is_empty (strip g2)); [constructor |].
    rewrite add_line_log. constructor.
  - rewrite add_line_log. constructor.
Qed.

End Headers.

(** ** Where the events come from *)

Section Provenance.
Context {U : UnicodeData} {libc : Platform}.

Lemma add_item_made d evs item l evs' :
  add_item d evs item = (l, inr evs') ->
  Forall made_from_item evs -> Forall made_from_item evs'.
Proof.
  unfold add_item. destruct (is_empty (strip item)) eqn:E.
  - intros H. inversion H; subst. auto.
  - destruct (make_event_total d (strip item)) as [e He]. rewrite He.
    simpl. intros H Hevs. inversion H; subst.
    apply Forall_app. split; [assumption |]. constructor; [| constructor].
    exists d, (strip item). auto using strip_idem.
Qed.

Lemma add_line_made st line l st' :
  add_line st line = (l, inr st') ->
  Forall made_from_item (events st) -> Forall made_from_item (events st').
Proof.
  unfold add_line. destruct (current_date st) as [d |].
  - intros H Hevs. apply bind_returns in H.
    destruct H as (l1 & evs & l2 & H1 & H2 & _). inversion H2; subst. simpl.
    eapply (for_each_invariant (add_item d) (Forall made_from_item));
      [| eassumption | assumption].
    intros. eapply add_item_made; eauto.
  - intros H. inversion H; subst. auto.
Qed.

Lemma loop_body_made year start_month st line l st' :
  loop_body year start_month st line = (l, inr st') ->
  Forall made_from_item (events st) -> Forall made_from_item (events st').
Proof.
  unfold loop_body. destruct (_ || _).
  { intros H. inversion H; subst. auto. }
  destruct (match_day_header (strip line)) as [[g1 g2] |];
    [| apply add_line_made].
  intros H Hevs.
  apply bind_returns in H. destruct H as (? & day & ? & _ & H & _).
  apply bind_returns in H. destruct H as (? & month & ? & _ & H & _).
  apply bind_returns in H. destruct H as (? & d & ? & _ & H & _).
  destruct (is_empty (strip g2)).
  - inversion H; subst. assumption.
  - eapply add_line_made; [eassumption | assumption].
Qed.

(** Every event of a schedule was built by [make_event]. *)
Lemma parse_schedule_made answer text year l evs :
  parse_schedule answer text year = (l, inr evs) ->
  Forall made_from_item evs.
Proof.
  unfold parse_schedule. destruct (splitlines text) as [| first rest];
    [discriminate |].
  intros H.
  apply bind_returns in H. destruct H as (? & sm & ? & _ & H & _).
  apply bind_returns in H. destruct H as (? & st & ? & Hloop & H & _).
  inversion H; subst.
  eapply (for_each_invariant (loop_body year sm)
            (fun s => Forall made_from_item (events s)));
    [| eassumption | constructor].
  intros. eapply loop_body_made; eauto.
Qed.

Lemma make_event_fields d item e :
  make_event d item = inr e ->
  exists start_time end_time,
    parse_time_range item = inr (start_time, end_time)
    /\ StartDate e = strftime_mdY d
    /\ StartTime e = or_empty start_time
    /\ EndTime e = or_empty end_time
    /\ EndDate e = (if is_empty (or_empty end_time) then []
                    else strftime_mdY d)
    /\ AllDayEvent e = (if is_empty (or_empty start_time) then lit "True"
                        else lit "False")
    /\ Subject e = (if is_empty (strip (sub_time_prefix item)) then item
                    else strip (sub_time_prefix item)).
Proof.
  unfold make_event.
  destruct (parse_time_range item) as [x | [a b]]; [discriminate |].
  intros H. inversion H; subst; simpl. exists a, b. repeat split.
Qed.

End Provenance.

Lemma is_empty_true s : is_empty s = true <-> s = [].
Proof. destruct s; simpl; split; congruence. Qed.

Lemma is_empty_false s : is_empty s = false <-> s <> [].
Proof. destruct s; simpl; split; congruence. Qed.

(** An hour up to 23 and minutes up to 59 print as a time of day. *)
Lemma printed_clock_time h m :
  0 <= h <= 23 -> 0 <= m <= 59 ->
  is_clock_time (format_d 2 h ++ [colon] ++ format_d 2 m) = true.
Proof.
  intros Hh Hm.
  assert (Hall : forallb (fun i => forallb (fun j =>
                   is_clock_time (format_d 2 (Z.of_nat i) ++ [colon]
                                  ++ format_d 2 (Z.of_nat j)))
                   (seq 0 60)) (seq 0 24) = true)
    by (vm_compute; reflexivity).
  rewrite forallb_forall in Hall.
  assert (Hi : In (Z.to_nat h) (seq 0 24)) by (apply in_seq; lia).
  specialize (Hall _ Hi). rewrite forallb_forall in Hall.
  assert (Hj : In (Z.to_nat m) (seq 0 60)) by (apply in_seq; lia).
  specialize (Hall _ Hj). rewrite !Z2Nat.id in Hall by lia. assumption.
Qed.

Section Invariants.
Context {U : UnicodeData} {libc : Platform}.

(** C6.  In every event that [parse_schedule] returns, the all-day field
    is ["True"] exactly when the start time is empty, and the end date is
    filled in exactly when the end time is. *)
Theorem all_day_and_end_date_invariant answer text year log evs e :
  parse_schedule answer text year = (log, inr evs) ->
  In e evs ->
  (AllDayEvent e = lit "True" <-> StartTime e = [])
  /\ (EndDate e <> [] <-> EndTime e <> []).
Proof.
  intros Hrun Hin. apply parse_schedule_made in Hrun.
  rewrite Forall_forall in Hrun. destruct (Hrun e Hin) as (d & item & _ & _ & He).
  apply make_event_fields in He.
  destruct He as (a & b & _ & _ & Hst & Het & Hed & Hall & _).
  rewrite Hst, Het, Hed, Hall. split.
  - destruct (is_empty (or_empty a)) eqn:E.
    + apply is_empty_true in E. rewrite E. split; reflexivity.
    + apply is_empty_false in E. split; [discriminate | contradiction].
  - destruct (is_empty (or_empty b)) eqn:E.
    + apply is_empty_true in E. rewrite E. split; contradiction.
    + apply is_empty_false in E. split; [auto |]. intros _.
      apply is_empty_false, strftime_not_empty.
Qed.

(** What the time fields do satisfy.  Every non-empty start or end time
    of an event is the hour printed with at least two digits, a colon, and
    the minutes printed with two digits, for an hour from 0 to 111 and
    minutes from 0 to 99.  It is a time of day on the 24-hour clock when
    that hour is at most 23 and the minutes at most 59. *)
Lemma time_fields_printed answer text year log evs e t :
  parse_schedule answer text year = (log, inr evs) ->
  In e evs ->
  t = StartTime e \/ t = EndTime e ->
  t <> [] ->
  exists h m,
    0 <= h <= 111 /\ 0 <= m <= 99 /\ printed_time t h m
    /\ (h <= 23 -> m <= 59 -> is_clock_time t = true).
Proof.
  intros Hrun Hin Ht Hne. apply parse_schedule_made in Hrun.
  rewrite Forall_forall in Hrun. destruct (Hrun e Hin) as (d & item & _ & _ & He).
  apply make_event_fields in He.
  destruct He as (a & b & Hp & _ & Hst & Het & _).
  destruct (parse_time_range_total item) as (a' & b' & Hp' & Ha & Hb).
  rewrite Hp in Hp'. inversion Hp'; subst a' b'.
  assert (Hwide : wide_time t).
  { destruct Ht as [-> | ->].
    - rewrite Hst in *. destruct a as [s |]; [apply Ha; reflexivity |].
      contradiction.
    - rewrite Het in *. destruct b as [s |]; [apply Hb; reflexivity |].
      contradiction. }
  destruct Hwide as (h & m & Hh & Hm & Hprint).
  exists h, m. repeat split; try assumption; try lia.
  intros Hh' Hm'. rewrite Hprint. apply printed_clock_time; lia.
Qed.

(** C7, where the code fails.  [parse_time_range] promises times in
    ["HH:MM"] 24-hour format, but the digits that its pattern accepts are
    never checked against the clock: ["25:99"] is returned as it is
    written, ["99pm"] becomes ["111:00"], and an entry like
    ["50 meter freestyle"] gets the start time ["50:00"], which is no time
    of day. *)
Theorem time_fields_beyond_the_clock :
  parse_time_range (lit "25:99 Foo") = inr (Some (lit "25:99"), None)
  /\ parse_time_range (lit "99pm") = inr (Some (lit "111:00"), None)
  /\ exists evs,
      parse_schedule None
        (text_of_lines [lit "Jan 2026"; lit "23 Mon 50 meter freestyle"])
        2026
      = ([], inr evs)
      /\ map Subject evs = [lit "meter freestyle"]
      /\ map StartTime evs = [lit "50:00"]
      /\ map AllDayEvent evs = [lit "False"]
      /\ map is_clock_time (map StartTime evs) = [false].
Proof.
  split; [vm_compute; reflexivity |]. split; [vm_compute; reflexivity |].
  eexists. split; [vm_compute; reflexivity |].
  repeat split; vm_compute; reflexivity.
Qed.

End Invariants.

(** ** Dates of day headers *)

Section HeaderDates.
Context {U : UnicodeData} {libc : Platform}.

(** A header whose date is invalid, in a month that has a 28th: the loop
    warns, takes the day after the 28th, and goes on with the rest of the
    line. *)
Lemma loop_body_corrected year start_month st line day trailing m d28 :
  day_header line day trailing ->
  header_month start_month (last_day st) day = inr (Some m) ->
  datetime year (Some m) day = inl ValueError ->
  datetime year (Some m) 28 = inr d28 ->
  exists st',
    loop_body year start_month st line
    = ([ShowWarning m day year (day_after_28th year m)], inr st')
    /\ current_date st' = Some (day_after_28th year m)
    /\ last_day st' = Some day
    /\ (if is_empty trailing
        then ret (after_header st (day_after_28th year m) day)
        else add_line (after_header st (day_after_28th year m) day) trailing)
       = ([], inr st').
Proof.
  intros Hh Hm Hbad H28.
  rewrite (loop_body_header _ _ _ _ _ _ Hh), Hm.
  unfold lift. rewrite bind_pure.
  rewrite (header_date_corrected _ _ _ _ Hbad H28).
  destruct (is_empty trailing).
  - eexists. split; [reflexivity |]. simpl. auto.
  - destruct (add_line_quiet
                (after_header st (day_after_28th year m) day) trailing)
      as (st' & Hst' & Hd & Hl).
    exists st'. unfold bind. rewrite Hst'. simpl. auto.
Qed.

(** A header whose date is valid. *)
Lemma loop_body_valid year start_month st line day trailing m d :
  day_header line day trailing ->
  header_month start_month (last_day st) day = inr (Some m) ->
  datetime year (Some m) day = inr d ->
  exists st',
    loop_body year start_month st line = ([], inr st')
    /\ current_date st' = Some (mkdate year m day)
    /\ last_day st' = Some day.
Proof.
  intros Hh Hm Hok.
  rewrite (loop_body_header _ _ _ _ _ _ Hh), Hm.
  unfold lift. rewrite bind_pure.
  rewrite (header_date_valid _ _ _ _ Hok), bind_pure.
  destruct (is_empty trailing).
  - eexists. split; [reflexivity |]. simpl. auto.
  - destruct (add_line_quiet (after_header st (mkdate year m day) day)
                trailing) as (st' & Hst' & Hd & Hl).
    exists st'. rewrite Hst'. simpl in *. auto.
Qed.

(** After a header line the state holds the date of the header. *)
Lemma loop_body_header_state year start_month st line day trailing l st' :
  day_header line day trailing ->
  loop_body year start_month st line = (l, inr st') ->
  exists month d l',
    header_month start_month (last_day st) day = inr month
    /\ header_date year month day = (l', inr d)
    /\ current_date st' = Some d /\ last_day st' = Some day.
Proof.
  intros Hh. rewrite (loop_body_header _ _ _ _ _ _ Hh). intros H.
  apply bind_returns in H. destruct H as (? & month & ? & Hm & H & _).
  apply bind_returns in H. destruct H as (l' & d & ? & Hd & H & _).
  exists month, d, l'. unfold lift in Hm. inversion Hm; subst.
  repeat split; try assumption.
  - destruct (is_empty trailing); [inversion H; reflexivity |].
    destruct (add_line_quiet (after_header st d day) trailing)
      as (st2 & Hst2 & Hcd & _).
    rewrite Hst2 in H. inversion H; subst. assumption.
  - destruct (is_empty trailing); [inversion H; reflexivity |].
    destruct (add_line_quiet (after_header st d day) trailing)
      as (st2 & Hst2 & _ & Hld).
    rewrite Hst2 in H. inversion H; subst. assumption.
Qed.

(** C1, as the code has it.  A day header whose day number is invalid for
    its month gets the day after the 28th of that same month, and a
    warning is shown: the 29th, or the first of March when the month is a
    February of 28 days.  Day 31 of a month of 30 days becomes the 29th
    of that month. *)
Theorem invalid_day_resolves_to_day_after_28th
  year start_month st line day trailing m d28 :
  day_header line day trailing ->
  header_month start_month (last_day st) day = inr (Some m) ->
  datetime year (Some m) day = inl ValueError ->
  datetime year (Some m) 28 = inr d28 ->
  (exists st',
     loop_body year start_month st line
     = ([ShowWarning m day year (day_after_28th year m)], inr st')
     /\ current_date st' = Some (day_after_28th year m))
  /\ (days_in_month year m = 28 -> day_after_28th year m = mkdate year 3 1)
  /\ (days_in_month year m <> 28 ->
      day_after_28th year m = mkdate year m 29).
Proof.
  intros Hh Hm Hbad H28. split; [| split].
  - destruct (loop_body_corrected _ _ _ _ _ _ _ _ Hh Hm Hbad H28)
      as (st' & H1 & H2 & _).
    exists st'. auto.
  - unfold days_in_month, day_after_28th. destruct (m =? 2).
    + destruct (is_leap year); [discriminate | reflexivity].
    + destruct (_ || _); discriminate.
  - unfold days_in_month, day_after_28th. destruct (m =? 2).
    + destruct (is_leap year); [reflexivity | congruence].
    + reflexivity.
Qed.

(** The handler builds the 28th with the year and the month of the date
    that was refused.  When it is the year or the month that [datetime]
    does not have, the handler's own [datetime] raises [ValueError], which
    nothing catches: no warning is shown and the loop ends there. *)
Lemma loop_body_handler_raises year start_month st line day trailing m :
  day_header line day trailing ->
  header_month start_month (last_day st) day = inr (Some m) ->
  c_int year = true -> c_int m = true ->
  year < 1 \/ 9999 < year \/ m < 1 \/ 12 < m ->
  loop_body year start_month st line = ([], inl ValueError).
Proof.
  intros Hh Hm Hy Hcm Hbad.
  pose proof (day_header_range _ _ _ Hh) as Hday.
  rewrite (loop_body_header _ _ _ _ _ _ Hh), Hm.
  unfold lift. rewrite bind_pure. unfold header_date.
  rewrite (datetime_out_of_range year m day Hy Hcm Hday Hbad).
  rewrite (datetime_out_of_range year m 28 Hy Hcm) by (assumption || lia).
  reflexivity.
Qed.

(** C2, where the code fails.  With the year 10000 the date of the header
    [23 Mon] is not a valid date, and neither is the 28th that the handler
    builds with the same year: [parse_schedule] ends with the
    [ValueError] of the handler, no date is set and no warning is shown.
    The same happens with a month 13 from the month dialog.  The 30th of
    February 2026, an invalid day in a month that has a 28th, is
    recovered from: a warning, and the first of March as the date. *)
Theorem invalid_date_handler_raises :
  datetime 10000 (Some 1) 23 = inl ValueError
  /\ datetime 10000 (Some 1) 28 = inl ValueError
  /\ parse_schedule None
       (text_of_lines [lit "Jan"; lit "23 Mon Practice"]) 10000
     = ([], inl ValueError)
  /\ parse_schedule (Some 13) (text_of_lines [lit "23 Mon Practice"]) 2026
     = ([AskInteger], inl ValueError)
  /\ exists evs,
      parse_schedule None
        (text_of_lines [lit "Feb"; lit "30 Mon Practice"]) 2026
      = ([ShowWarning 2 30 2026 (mkdate 2026 3 1)], inr evs)
      /\ map StartDate evs = [strftime_mdY (mkdate 2026 3 1)].
Proof.
  do 4 (split; [vm_compute; reflexivity |]).
  eexists. split; vm_compute; reflexivity.
Qed.

Lemma header_month_rolls sm prev day :
  0 <= day -> day < prev ->
  header_month (Some sm) (Some prev) day = inr (Some (next_month sm)).
Proof.
  intros H0 Hlt. unfold header_month, next_month.
  assert (E1 : (prev =? 0) = false) by (apply Z.eqb_neq; lia).
  assert (E2 : (day <? prev) = true) by (apply Z.ltb_lt; lia).
  rewrite E1, E2. reflexivity.
Qed.


(** C5.  When the day number of a header is below that of the header
    before, its month is the start month plus one, 12 being followed by
    1, and its date is built in the year that was given: the year is not
    advanced. *)
Theorem month_rollover year sm st line day trailing prev :
  day_header line day trailing ->
  last_day st = Some prev ->
  day < prev ->
  header_month (Some sm) (last_day st) day = inr (Some (next_month sm))
  /\ (sm = 12 -> next_month sm = 1)
  /\ (1 <= sm < 12 -> next_month sm = sm + 1)
  /\ loop_body year (Some sm) st line
     = (d <- header_date year (Some (next_month sm)) day ;;
        if is_empty trailing then ret (after_header st d day)
        else add_line (after_header st d day) trailing)
  /\ (forall d, datetime year (Some (next_month sm)) day = inr d ->
      exists st',
        loop_body year (Some sm) st line = ([], inr st')
        /\ current_date st' = Some (mkdate year (next_month sm) day))
  /\ (forall l st' d,
        loop_body year (Some sm) st line = (l, inr st') ->
        current_date st' = Some d -> year_of d = year).
Proof.
  intros Hh Hprev Hlt.
  pose proof (day_header_range _ _ _ Hh) as Hday.
  assert (Hm : header_month (Some sm) (last_day st) day
               = inr (Some (next_month sm)))
    by (rewrite Hprev; apply header_month_rolls; lia).
  split; [assumption |].
  split; [intros ->; reflexivity |].
  split.
  { intros Hsm. unfold next_month.
    assert (E : (12 <? sm + 1) = false) by (apply Z.ltb_ge; lia).
    rewrite E. reflexivity. }
  split.
  { rewrite (loop_body_header _ _ _ _ _ _ Hh), Hm.
    unfold lift. rewrite bind_pure. reflexivity. }
  split.
  - intros d Hd.
    destruct (loop_body_valid _ _ _ _ _ _ _ _ Hh Hm Hd) as (st' & H1 & H2 & _).
    exists st'. auto.
  - intros l st' d Hrun Hcd.
    destruct (loop_body_header_state _ _ _ _ _ _ _ _ Hh Hrun)
      as (month & d' & l' & _ & Hd' & Hcd' & _).
    rewrite Hcd in Hcd'. inversion Hcd'; subst.
    eapply header_date_year; eauto.
Qed.


End HeaderDates.

(** ** Time ranges *)

Section TimeRangeSides.
Context {U : UnicodeData} {libc : Platform}.

Lemma opt_ampm_marker s a rest :
  opt_ampm s = (Some a, rest) -> lower a = lit "am" \/ lower a = lit "pm".
Proof.
  unfold opt_ampm. destruct s as [| x [| y r]]; try discriminate.
  destruct ((N.eqb (lower_char x) 97 || N.eqb (lower_char x) 112)
            && N.eqb (lower_char y) 109) eqn:E; [| discriminate].
  intros H. inversion H; subst. simpl.
  apply andb_prop in E. destruct E as [Ex Ey]. apply N.eqb_eq in Ey.
  rewrite Ey. apply orb_prop in Ex.
  destruct Ex as [Ex | Ex]; apply N.eqb_eq in Ex; rewrite Ex; auto.
Qed.

Lemma time_side_marker s g mm a rest :
  time_side s = Some (g, mm, Some a, rest) ->
  lower a = lit "am" \/ lower a = lit "pm".
Proof.
  unfold time_side. destruct (digits_1_2 s) as [[h s1] |]; [| discriminate].
  destruct (opt_minutes s1) as [mm' s2].
  destruct (opt_ampm (lstrip s2)) as [ap s3] eqn:E.
  intros H. inversion H; subst. eapply opt_ampm_marker; eauto.
Qed.

(** The markers the pattern captures are am and pm in any letter case. *)
Lemma match_time_pattern_markers s g rest :
  match_time_pattern s = Some (g, rest) ->
  (forall a, g_start_ampm g = Some a ->
             lower a = lit "am" \/ lower a = lit "pm")
  /\ (forall a, g_end_ampm g = Some a ->
                lower a = lit "am" \/ lower a = lit "pm").
Proof.
  unfold match_time_pattern.
  destruct (time_side s) as [[[[start smin] sap] s1] |] eqn:Es;
    [| discriminate].
  assert (Hs : forall a, sap = Some a ->
                         lower a = lit "am" \/ lower a = lit "pm").
  { intros a ->. eapply time_side_marker; eauto. }
  destruct (lstrip s1) as [| c s2];
    [intros H; inversion H; subst; simpl; split; [assumption | discriminate] |].
  destruct (N.eqb c hyphen);
    [| intros H; inversion H; subst; simpl; split; [assumption | discriminate]].
  destruct (time_side (lstrip s2)) as [[[[e emin] eap] r] |] eqn:Ee;
    intros H; inversion H; subst; simpl; split; try assumption;
    try discriminate.
  intros a ->. eapply time_side_marker; eauto.
Qed.

Lemma convert_hour_pm h a :
  lower a = lit "pm" ->
  convert_hour h (Some a) = if h =? 12 then 12 else h + 12.
Proof.
  intros Ha. unfold convert_hour.
  assert (E : is_empty a = false) by (destruct a; [discriminate | reflexivity]).
  rewrite E, Ha. simpl. destruct (h =? 12) eqn:E12; simpl.
  - apply Z.eqb_eq in E12. assumption.
  - reflexivity.
Qed.

Lemma convert_hour_am h a :
  lower a = lit "am" ->
  convert_hour h (Some a) = if h =? 12 then 0 else h.
Proof.
  intros Ha. unfold convert_hour.
  assert (E : is_empty a = false) by (destruct a; [discriminate | reflexivity]).
  rewrite E, Ha. reflexivity.
Qed.

(** C3.  [parse_time_range] converts each side of a range by itself.
    When the pattern matches, the start is the hour and minutes of the
    start group converted with the start marker alone, and the end those of
    the end group converted with the end marker alone; a marker is am or
    pm; pm adds 12 to an hour other than 12, am turns 12 into 0, and
    without a marker the hour is taken as it is written.  So ["9-10pm"]
    starts at ["09:00"], not at ["21:00"]. *)
Theorem time_range_sides_independent :
  (forall text g rest,
     match_time_pattern (strip (replace endash hyphen text)) = Some (g, rest) ->
     (exists h m,
        time_text (g_start g) h m
        /\ exists end24,
            parse_time_range text
            = inr (Some (format_d 2 (convert_hour h (g_start_ampm g))
                         ++ [colon] ++ format_d 2 m), end24)
            /\ match g_end g with
               | None => end24 = None
               | Some e =>
                   exists h' m',
                     time_text e h' m'
                     /\ end24
                        = Some (format_d 2 (convert_hour h' (g_end_ampm g))
                                ++ [colon] ++ format_d 2 m')
               end)
     /\ (forall a, g_start_ampm g = Some a ->
                   lower a = lit "am" \/ lower a = lit "pm")
     /\ (forall a, g_end_ampm g = Some a ->
                   lower a = lit "am" \/ lower a = lit "pm"))
  /\ (forall h, convert_hour h None = h)
  /\ (forall h a, lower a = lit "pm" ->
                  convert_hour h (Some a) = if h =? 12 then 12 else h + 12)
  /\ (forall h a, lower a = lit "am" ->
                  convert_hour h (Some a) = if h =? 12 then 0 else h)
  /\ parse_time_range (lit "9-10pm")
     = inr (Some (lit "09:00"), Some (lit "22:00"))
  /\ parse_time_range (lit "10am-11:30am")
     = inr (Some (lit "10:00"), Some (lit "11:30"))
  /\ parse_time_range (lit "14:00") = inr (Some (lit "14:00"), None).
Proof.
  split.
  { intros text g rest Hm. split.
    - eapply parse_time_range_matched; eauto.
    - eapply match_time_pattern_markers; eauto. }
  split; [reflexivity |].
  split; [apply convert_hour_pm |].
  split; [apply convert_hour_am |].
  repeat split; vm_compute; reflexivity.
Qed.

End TimeRangeSides.

(** ** The subject of an event *)

Section Subjects.
Context {U : UnicodeData} {libc : Platform}.

(** What the subject pattern takes after the first side of the time. *)
Lemma sub_time_prefix_after item g mm ap s1 :
  time_side item = Some (g, mm, ap, s1) ->
  suffix_of (sub_time_prefix item) (lstrip s1).
Proof.
  intros H. unfold sub_time_prefix. rewrite H.
  destruct (opt_minutes (digits_0_2 (lstrip (opt_hyphen (lstrip s1)))))
    as [mm' s4] eqn:Em.
  destruct (opt_ampm (lstrip s4)) as [ap' s5] eqn:Ea.
  eapply suffix_trans; [apply lstrip_suffix |].
  eapply suffix_trans; [eapply opt_ampm_suffix; eassumption |].
  eapply suffix_trans; [apply lstrip_suffix |].
  eapply suffix_trans; [eapply opt_minutes_suffix; eassumption |].
  eapply suffix_trans; [apply digits_0_2_suffix |].
  eapply suffix_trans; [apply lstrip_suffix |].
  apply opt_hyphen_suffix.
Qed.

Lemma sub_time_prefix_no_time item :
  time_side item = None -> sub_time_prefix item = item.
Proof. intros H. unfold sub_time_prefix. rewrite H. reflexivity. Qed.

(** When the text starts with a time, the subject pattern takes at least
    its first character. *)
Lemma sub_time_prefix_shorter item g mm ap s1 :
  time_side item = Some (g, mm, ap, s1) -> sub_time_prefix item <> item.
Proof.
  intros H. pose proof (sub_time_prefix_after _ _ _ _ _ H) as Hsub.
  apply time_side_shape in H. destruct H as (_ & _ & c & s' & -> & Hs1).
  assert (Hs : suffix_of (sub_time_prefix (c :: s')) s').
  { eapply suffix_trans; [eassumption |].
    eapply suffix_trans; [apply lstrip_suffix | assumption]. }
  apply suffix_length in Hs. intros E. rewrite E in Hs. simpl in Hs. lia.
Qed.

(** The subject pattern takes everything the time pattern matches. *)
Lemma sub_time_prefix_covers item g rest :
  match_time_pattern item = Some (g, rest) ->
  suffix_of (sub_time_prefix item) rest.
Proof.
  unfold match_time_pattern.
  destruct (time_side item) as [[[[start smin] sap] s1] |] eqn:Es;
    [| discriminate].
  pose proof (sub_time_prefix_after _ _ _ _ _ Es) as Hgen.
  destruct (lstrip s1) as [| c s2] eqn:El;
    [intros H; inversion H; subst; assumption |].
  destruct (N.eqb c hyphen) eqn:Ec;
    [| intros H; inversion H; subst; assumption].
  destruct (time_side (lstrip s2)) as [[[[e emin] eap] r] |] eqn:Ee;
    intros H; inversion H; subst; [| assumption].
  clear Hgen H. unfold sub_time_prefix. rewrite Es, El.
  unfold opt_hyphen. rewrite Ec.
  unfold time_side in Ee. unfold digits_0_2.
  destruct (digits_1_2 (lstrip s2)) as [[h t1] |]; [| discriminate].
  destruct (opt_minutes t1) as [mm2 t2].
  destruct (opt_ampm (lstrip t2)) as [ap2 t3].
  inversion Ee; subst. apply lstrip_suffix.
Qed.

Lemma match_time_pattern_none item :
  match_time_pattern item = None <-> time_side item = None.
Proof.
  unfold match_time_pattern.
  destruct (time_side item) as [[[[start smin] sap] s1] |];
    [| split; reflexivity].
  split; [| discriminate].
  destruct (lstrip s1) as [| c s2]; [discriminate |].
  destruct (N.eqb c hyphen); [| discriminate].
  destruct (time_side (lstrip s2)) as [[[[e emin] eap] r] |]; discriminate.
Qed.

(** What the subject of a fragment is.  For a non-empty fragment without
    en dash, the subject of its event is the fragment without the match of
    the subject pattern at its start, stripped, or the whole fragment when
    nothing is left.  The subject pattern removes something exactly when
    [parse_time_range] finds a time, and then at least all that the time
    pattern matches. *)
Lemma subject_of_fragment d evs fragment :
  is_empty (strip fragment) = false ->
  contains endash (strip fragment) = false ->
  exists e,
    add_item d evs fragment = ([], inr (evs ++ [e]))
    /\ Subject e
       = (if is_empty (strip (sub_time_prefix (strip fragment)))
          then strip fragment
          else strip (sub_time_prefix (strip fragment)))
    /\ suffix_of (sub_time_prefix (strip fragment)) (strip fragment)
    /\ (StartTime e = [] <-> sub_time_prefix (strip fragment) = strip fragment)
    /\ (forall g rest,
          match_time_pattern (strip (replace endash hyphen (strip fragment)))
          = Some (g, rest) ->
          suffix_of (sub_time_prefix (strip fragment)) rest).
Proof.
  intros Hne Hdash. set (item := strip fragment) in *.
  assert (Hitem : strip (replace endash hyphen item) = item).
  { rewrite (replace_absent _ _ _ Hdash). apply strip_idem. }
  destruct (make_event_total d item) as [e He].
  exists e. split.
  { unfold add_item. fold item. rewrite Hne, He. reflexivity. }
  pose proof (make_event_fields _ _ _ He)
    as (a & b & Hp & _ & Hst & _ & _ & _ & Hsubj).
  split; [assumption |]. rewrite Hitem.
  destruct (time_side item) as [[[[g mm] ap] s1] |] eqn:Es.
  - pose proof (sub_time_prefix_after _ _ _ _ _ Es) as Hafter.
    pose proof (time_side_shape _ _ _ _ _ Es) as (_ & Hs1 & _).
    split.
    { eapply suffix_trans; [eassumption |].
      eapply suffix_trans; [apply lstrip_suffix | assumption]. }
    split; [| intros g' rest; apply sub_time_prefix_covers].
    split; [| intros E; exfalso;
              exact (sub_time_prefix_shorter _ _ _ _ _ Es E)].
    intros Hempty. exfalso.
    destruct (match_time_pattern item) as [[g' rest] |] eqn:Hm.
    + rewrite <- Hitem in Hm.
      destruct (parse_time_range_matched _ _ _ Hm)
        as (h & m & _ & end24 & Hp' & _).
      rewrite Hp in Hp'. inversion Hp'; subst a. simpl in Hst.
      rewrite Hst in Hempty.
      pose proof (format_d_not_empty 1 (convert_hour h (g_start_ampm g')))
        as Hf.
      destruct (format_d 2 (convert_hour h (g_start_ampm g')));
        discriminate.
    + apply match_time_pattern_none in Hm. congruence.
  - rewrite (sub_time_prefix_no_time _ Es).
    apply match_time_pattern_none in Es.
    split; [apply suffix_refl |].
    split; [| intros g rest Hm; congruence].
    split; [reflexivity |]. intros _.
    unfold parse_time_range in Hp. rewrite Hitem, Es in Hp.
    inversion Hp; subst. assumption.
Qed.

(** C4, where the code fails.  In ["7pm 5k run"] the time is ["7pm"]:
    that is all [parse_time_range] reads, as a start without an end, and
    the time pattern stops before ["5k run"].  The pattern that removes
    the time from the description goes on through up to two digits
    whether a hyphen came or not, and takes the ["5"] with it: the subject
    is ["k run"]. *)
Theorem subject_loses_digit_after_time :
  (exists g,
     match_time_pattern (lit "7pm 5k run") = Some (g, lit "5k run")
     /\ g_end g = None)
  /\ parse_time_range (lit "7pm 5k run") = inr (Some (lit "19:00"), None)
  /\ sub_time_prefix (lit "7pm 5k run") = lit "k run"
  /\ exists evs,
      parse_schedule None
        (text_of_lines [lit "Jan 2026"; lit "23 Mon 7pm 5k run"]) 2026
      = ([], inr evs)
      /\ map Subject evs = [lit "k run"]
      /\ map StartTime evs = [lit "19:00"]
      /\ map EndTime evs = [[]].
Proof.
  split; [eexists; split; vm_compute; reflexivity |].
  split; [vm_compute; reflexivity |]. split; [vm_compute; reflexivity |].
  eexists. split; [vm_compute; reflexivity |].
  repeat split; vm_compute; reflexivity.
Qed.

End Subjects.

(** ** The month of the schedule *)

Lemma month_abbr_number abbr :
  In abbr month_abbrs ->
  exists m, strptime_b_month abbr = inr m /\ 1 <= m <= 12
            /\ nth_error month_abbrs (Z.to_nat (m - 1)) = Some abbr.
Proof.
  unfold month_abbrs. simpl.
  intros H.
  repeat (destruct H as [<- | H];
          [eexists; split; [vm_compute; reflexivity |];
           split; [lia | reflexivity] |]).
  contradiction.
Qed.

Section Month.
Context {U : UnicodeData} {libc : Platform}.

Lemma parse_schedule_lines answer text year first rest :
  splitlines text = first :: rest ->
  parse_schedule answer text year
  = (start_month <- detect_month answer first ;;
     st <- for_each (loop_body year start_month) (first :: rest) init_state ;;
     ret (events st)).
Proof. intros H. unfold parse_schedule. rewrite H. reflexivity. Qed.

Lemma lines_log year start_month lines :
  Forall is_warning
    (fst (st <- for_each (loop_body year start_month) lines init_state ;;
          ret (events st))).
Proof.
  apply bind_log; [| intros; constructor].
  apply for_each_log. intros. apply loop_body_log.
Qed.

Lemma warnings_no_prompt l : Forall is_warning l -> ~ In AskInteger l.
Proof.
  intros H Hin. rewrite Forall_forall in H. exact (H _ Hin).
Qed.

Lemma is_prefix_same_length a b s :
  is_prefix a s = true -> is_prefix b s = true ->
  List.length a = List.length b -> a = b.
Proof.
  revert b s. induction a as [| x a IH]; intros [| y b] [| z s];
    simpl; try discriminate; try reflexivity.
  intros Ha Hb Hlen.
  apply andb_prop in Ha. destruct Ha as [Hx Ha].
  apply andb_prop in Hb. destruct Hb as [Hy Hb].
  apply N.eqb_eq in Hx, Hy. subst.
  f_equal. eapply IH; eauto.
Qed.

Lemma month_abbrs_length abbr :
  In abbr month_abbrs -> List.length abbr = 3%nat.
Proof.
  unfold month_abbrs. simpl. intros H.
  repeat (destruct H as [<- | H]; [reflexivity |]). contradiction.
Qed.

(** A string that starts with one of the abbreviations matches the month
    pattern, with that abbreviation. *)
Lemma match_month_found s abbr :
  In abbr month_abbrs -> is_prefix abbr s = true ->
  match_month s = Some abbr.
Proof.
  intros Hin Hpre. unfold match_month.
  destruct (find (fun a => is_prefix a s) month_abbrs) as [a |] eqn:E.
  - apply find_some in E. destruct E as [Ha Hpa]. f_equal.
    apply (is_prefix_same_length a abbr s Hpa Hpre).
    rewrite (month_abbrs_length _ Ha), (month_abbrs_length _ Hin).
    reflexivity.
  - pose proof (find_none _ _ E _ Hin) as H. simpl in H. congruence.
Qed.

(** A string matches the month pattern unless it starts with none of
    the abbreviations. *)
Lemma match_month_none s :
  match_month s = None
  <-> (forall abbr, In abbr month_abbrs -> is_prefix abbr s = false).
Proof.
  split.
  - intros E abbr Hin. exact (find_none _ _ E _ Hin).
  - intros H. unfold match_month.
    destruct (find (fun a => is_prefix a s) month_abbrs) as [a |] eqn:E;
      [| reflexivity].
    apply find_some in E. destruct E as [Ha Hpa].
    rewrite (H a Ha) in Hpa. discriminate.
Qed.

Lemma nth_month_abbr m abbr :
  1 <= m <= 12 ->
  nth_error month_abbrs (Z.to_nat (m - 1)) = Some abbr ->
  In abbr month_abbrs /\ strptime_b_month abbr = inr m.
Proof.
  intros Hm Hnth. split; [eapply nth_error_In; eassumption |].
  assert (Hcases : m = 1 \/ m = 2 \/ m = 3 \/ m = 4 \/ m = 5 \/ m = 6
                   \/ m = 7 \/ m = 8 \/ m = 9 \/ m = 10 \/ m = 11
                   \/ m = 12) by lia.
  repeat (destruct Hcases as [-> | Hcases];
          [vm_compute in Hnth; inversion Hnth; reflexivity |]).
  subst. vm_compute in Hnth. inversion Hnth. reflexivity.
Qed.

(** C9, as the code has it.  The start month is read off the first line
    of the text, stripped, empty or not: when that line starts with the
    abbreviation of month [m], one of the twelve as written in the
    pattern, the start month is [m] and the user is not asked; when it
    starts with none of them, the user is asked, first of all, and the
    answer is the start month.  So the user is asked exactly when the
    first line does not start with an abbreviation. *)
Theorem month_from_first_line answer text year first rest :
  splitlines text = first :: rest ->
  parse_schedule answer text year
  = (start_month <- detect_month answer first ;;
     st <- for_each (loop_body year start_month) (first :: rest) init_state ;;
     ret (events st))
  /\ (forall m abbr,
        1 <= m <= 12 ->
        nth_error month_abbrs (Z.to_nat (m - 1)) = Some abbr ->
        is_prefix abbr (strip first) = true ->
        detect_month answer first = ([], inr (Some m))
        /\ ~ In AskInteger (fst (parse_schedule answer text year)))
  /\ ((forall abbr,
         In abbr month_abbrs -> is_prefix abbr (strip first) = false) ->
      detect_month answer first = ([AskInteger], inr answer)
      /\ exists l,
          fst (parse_schedule answer text year) = AskInteger :: l
          /\ ~ In AskInteger l)
  /\ (In AskInteger (fst (parse_schedule answer text year))
      <-> (forall abbr,
             In abbr month_abbrs -> is_prefix abbr (strip first) = false)).
Proof.
  intros Hlines.
  assert (Hrun := parse_schedule_lines answer text year first rest Hlines).
  assert (Hsome : forall abbr,
             match_month (strip first) = Some abbr ->
             ~ In AskInteger (fst (parse_schedule answer text year))).
  { intros abbr Hm. pose proof Hm as Hfind. unfold match_month in Hfind.
    apply find_some in Hfind. destruct Hfind as [Hin _].
    destruct (month_abbr_number _ Hin) as (m & Hstr & _).
    rewrite Hrun. unfold detect_month. rewrite Hm, Hstr.
    unfold lift, ret. rewrite !bind_pure.
    apply warnings_no_prompt, lines_log. }
  assert (Hnone : match_month (strip first) = None ->
             detect_month answer first = ([AskInteger], inr answer)
             /\ exists l,
                 fst (parse_schedule answer text year) = AskInteger :: l
                 /\ ~ In AskInteger l).
  { intros Hm.
    assert (Hd : detect_month answer first = ([AskInteger], inr answer)).
    { unfold detect_month. rewrite Hm. reflexivity. }
    split; [assumption |]. rewrite Hrun, Hd.
    pose proof (lines_log year answer (first :: rest)) as Hlog.
    unfold bind at 1.
    destruct (st <- for_each (loop_body year answer) (first :: rest)
                      init_state ;; ret (events st)) as [l r].
    exists l. split; [reflexivity |]. apply warnings_no_prompt. assumption. }
  split; [assumption |]. split; [| split].
  - intros m abbr Hm Hnth Hpre.
    destruct (nth_month_abbr m abbr Hm Hnth) as [Hin Hstr].
    pose proof (match_month_found _ _ Hin Hpre) as Hmatch.
    split; [| exact (Hsome abbr Hmatch)].
    unfold detect_month. rewrite Hmatch, Hstr. reflexivity.
  - intros Hno. apply Hnone. apply match_month_none. assumption.
  - split.
    + intros Hasked. apply match_month_none.
      destruct (match_month (strip first)) as [abbr |] eqn:E;
        [| reflexivity].
      exfalso. exact (Hsome abbr eq_refl Hasked).
    + intros Hno. apply match_month_none in Hno.
      destruct (Hnone Hno) as (_ & l & -> & _). left. reflexivity.
Qed.

(** C8, where the code fails.  On the empty text [parse_schedule] raises
    [IndexError] at [lines[0]].  On a text with a day header it raises
    [ValueError] from inside the handler when the year is 0, and
    [TypeError] when the month had to be asked and the dialog was
    cancelled. *)
Theorem parse_schedule_empty_text_raises answer year :
  parse_schedule answer [] year = ([], inl IndexError)
  /\ parse_schedule answer (text_of_lines [lit "Jan"; lit "31 Mon x"]) 0
     = ([], inl ValueError)
  /\ parse_schedule None (text_of_lines [lit "23 Mon Practice"]) 2026
     = ([AskInteger], inl TypeError).
Proof. repeat split; vm_compute; reflexivity. Qed.

End Month.

(** ** When the parser returns *)

Lemma for_each_returns {A S} (body : S -> A -> M S) :
  (forall s x, exists l s', body s x = (l, inr s')) ->
  forall xs s, exists l s', for_each body xs s = (l, inr s').
Proof.
  intros Hbody. induction xs as [| x xs IH]; simpl; intros s.
  - exists [], s. reflexivity.
  - destruct (Hbody s x) as (l1 & s1 & H1). rewrite H1.
    destruct (IH s1) as (l2 & s2 & H2). unfold bind. rewrite H2.
    eexists _, _. reflexivity.
Qed.

Section Returns.
Context {U : UnicodeData} {libc : Platform}.

Lemma header_month_in_range sm last day :
  1 <= sm <= 12 ->
  exists m, header_month (Some sm) last day = inr (Some m) /\ 1 <= m <= 12.
Proof.
  intros Hsm. unfold header_month. destruct last as [l |].
  - destruct (negb (l =? 0) && (day <? l)).
    + eexists. split; [reflexivity |].
      destruct (12 <? sm + 1) eqn:E; [lia |]. apply Z.ltb_ge in E. lia.
    + eexists. split; [reflexivity | assumption].
  - eexists. split; [reflexivity | assumption].
Qed.



Lemma header_date_returns year m day :
  1 <= year <= 9999 -> 1 <= m <= 12 -> 0 <= day <= 99 ->
  exists l d, header_date year (Some m) day = (l, inr d).
Proof.
  intros Hy Hm Hday.
  destruct (datetime year (Some m) day) as [e | d] eqn:Ed.
  - assert (e = ValueError).
    { rewrite datetime_small in Ed by (apply c_int_range; lia).
      destruct (_ && _); inversion Ed; reflexivity. }
    subst e. eexists _, _.
    eapply header_date_corrected; [eassumption |].
    apply datetime_28; assumption.
  - eexists _, _. eapply header_date_valid; eassumption.
Qed.

Lemma loop_body_returns year sm st line :
  1 <= year <= 9999 -> 1 <= sm <= 12 ->
  exists l st', loop_body year (Some sm) st line = (l, inr st').
Proof.
  intros Hy Hsm.
  destruct (match_day_header (strip line)) as [[g1 g2] |] eqn:Hm.
  - destruct (match_day_header_digits _ _ _ Hm) as [[day Hday] _].
    assert (Hh : day_header line day (strip g2)).
    { exists g1, g2. repeat split; [assumption |].
      apply two_digits_int. assumption. }
    rewrite (loop_body_header _ _ _ _ _ _ Hh).
    destruct (header_month_in_range sm (last_day st) day Hsm)
      as (m & Hmonth & Hrange).
    rewrite Hmonth. unfold lift. rewrite bind_pure.
    destruct (header_date_returns year m day Hy Hrange
                (two_digits_range _ _ Hday)) as (l & d & Hd).
    rewrite Hd. unfold bind.
    destruct (is_empty (strip g2)).
    + eexists _, _. reflexivity.
    + destruct (add_line_quiet (after_header st d day) (strip g2))
        as (st' & -> & _).
      eexists _, _. reflexivity.
  - unfold loop_body. rewrite Hm.
    destruct (_ || _); [eexists _, _; reflexivity |].
    destruct (add_line_quiet st (strip line)) as (st' & -> & _).
    eexists _, _. reflexivity.
Qed.

(** [parse_schedule] returns a list of events when the text has a line,
    the year is one that [datetime] has, and the month, if the user is
    asked for it, is answered with a number from 1 to 12. *)
Lemma parse_schedule_returns answer text year first rest :
  splitlines text = first :: rest ->
  1 <= year <= 9999 ->
  (match_month (strip first) = None ->
   exists m, answer = Some m /\ 1 <= m <= 12) ->
  exists l evs, parse_schedule answer text year = (l, inr evs).
Proof.
  intros Hlines Hy Hanswer. rewrite (parse_schedule_lines _ _ _ _ _ Hlines).
  assert (Hd : exists l sm, detect_month answer first = (l, inr (Some sm))
                            /\ 1 <= sm <= 12).
  { unfold detect_month.
    destruct (match_month (strip first)) as [abbr |] eqn:Ea.
    - unfold match_month in Ea. apply find_some in Ea.
      destruct Ea as [Hin _].
      destruct (month_abbr_number _ Hin) as (m & -> & Hm & _).
      eexists _, m. split; [reflexivity | assumption].
    - destruct (Hanswer eq_refl) as (m & -> & Hm).
      eexists _, m. split; [reflexivity | assumption]. }
  destruct Hd as (l0 & sm & -> & Hsm).
  destruct (for_each_returns (loop_body year (Some sm))
              (fun s x => loop_body_returns year sm s x Hy Hsm)
              (first :: rest) init_state) as (l1 & st & Hloop).
  unfold bind at 1. unfold bind at 1. rewrite Hloop.
  eexists _, _. reflexivity.
Qed.

End Returns.

(** * Further properties of the parser *)

Lemma bind_assoc {A B C} (m : M A) (f : A -> M B) (g : B -> M C) :
  bind (bind m f) g = bind m (fun a => bind (f a) g).
Proof.
  unfold bind. destruct m as [l [e | a]]; [reflexivity |].
  destruct (f a) as [l1 [e | b]]; [reflexivity |].
  destruct (g b) as [l2 r]. rewrite app_assoc. reflexivity.
Qed.

Lemma for_each_app {A S} (body : S -> A -> M S) xs ys s :
  for_each body (xs ++ ys) s
  = (s' <- for_each body xs s ;; for_each body ys s').
Proof.
  revert s. induction xs as [| x xs IH]; intros s.
  - change (for_each body ys s
            = bind ([], inr s) (fun s' => for_each body ys s')).
    rewrite bind_pure. reflexivity.
  - change (bind (body s x) (fun s' => for_each body (xs ++ ys) s')
            = bind (bind (body s x) (fun s' => for_each body xs s'))
                (fun s' => for_each body ys s')).
    rewrite bind_assoc. destruct (body s x) as [l [e | s1]];
      [reflexivity |].
    unfold bind at 1 2. rewrite IH. reflexivity.
Qed.

Lemma for_each_fixed {A S} (body : S -> A -> M S) xs s :
  (forall x, In x xs -> body s x = ([], inr s)) ->
  for_each body xs s = ([], inr s).
Proof.
  induction xs as [| x xs IH]; intros H; [reflexivity |].
  simpl. rewrite (H x (or_introl eq_refl)), bind_pure.
  apply IH. intros y Hy. apply H. right. assumption.
Qed.

(** A loop relates its first state to its last by any relation that each
    round keeps, when the relation is reflexive and transitive. *)
Lemma for_each_related {A S} (body : S -> A -> M S) (R : S -> S -> Prop) :
  (forall s, R s s) ->
  (forall a b c, R a b -> R b c -> R a c) ->
  (forall s x l s', body s x = (l, inr s') -> R s s') ->
  forall xs s l s', for_each body xs s = (l, inr s') -> R s s'.
Proof.
  intros Hrefl Htrans Hbody. induction xs as [| x xs IH]; simpl;
    intros s l s' H.
  - inversion H; subst. apply Hrefl.
  - apply bind_returns in H. destruct H as (l1 & a & l2 & H1 & H2 & _).
    eapply Htrans; eauto.
Qed.

Lemma prefix_of_refl {A} (a : list A) : prefix_of a a.
Proof. exists []. rewrite app_nil_r. reflexivity. Qed.

Lemma prefix_of_trans {A} (a b c : list A) :
  prefix_of a b -> prefix_of b c -> prefix_of a c.
Proof.
  intros [p ->] [q ->]. exists (p ++ q). rewrite app_assoc. reflexivity.
Qed.

Lemma detect_month_returns answer first :
  exists l sm, detect_month answer first = (l, inr sm).
Proof.
  unfold detect_month. destruct (match_month (strip first)) as [abbr |] eqn:E.
  - unfold match_month in E. apply find_some in E. destruct E as [Hin _].
    destruct (month_abbr_number _ Hin) as (m & -> & _).
    eexists _, _. reflexivity.
  - eexists _, _. reflexivity.
Qed.

Section Lines.
Context {U : UnicodeData} {libc : Platform}.

Lemma loop_body_skipped year sm st line :
  skipped line = true -> loop_body year sm st line = ([], inr st).
Proof. unfold skipped, loop_body. intros ->. reflexivity. Qed.

Lemma loop_body_no_date year sm st line :
  current_date st = None ->
  match_day_header (strip line) = None ->
  loop_body year sm st line = ([], inr st).
Proof.
  intros Hd Hm. unfold loop_body. rewrite Hm.
  destruct (_ || _); [reflexivity |].
  unfold add_line. rewrite Hd. reflexivity.
Qed.

(** Without a date, lines that are no headers leave the state as it is. *)
Lemma lines_without_header year sm lines st :
  current_date st = None ->
  (forall line, In line lines -> match_day_header (strip line) = None) ->
  for_each (loop_body year sm) lines st = ([], inr st).
Proof.
  intros Hd Hnone. apply for_each_fixed. intros line Hin.
  apply loop_body_no_date; auto.
Qed.

(** A text without any day header gives no event, whatever the year and
    whatever the answer to the month dialog: when it has a line, every
    line is passed over and nothing is raised; when it has none, as the
    empty text, [lines[0]] raises [IndexError]. *)
Theorem no_header_no_events answer text year :
  (forall line, In line (splitlines text) ->
                match_day_header (strip line) = None) ->
  match splitlines text with
  | [] => parse_schedule answer text year = ([], inl IndexError)
  | first :: _ =>
      parse_schedule answer text year
      = (fst (detect_month answer first), inr [])
  end.
Proof.
  intros Hnone. unfold parse_schedule.
  destruct (splitlines text) as [| first rest]; [reflexivity |].
  destruct (detect_month_returns answer first) as (l & sm & ->).
  unfold bind at 1.
  rewrite (lines_without_header year sm (first :: rest) init_state eq_refl
             Hnone).
  simpl. rewrite app_nil_r. reflexivity.
Qed.

(** Blank lines and comment lines can be taken out of the lines the loop
    runs over: its interactions and its result are the same. *)
Theorem skipped_lines_ignored year sm lines st :
  for_each (loop_body year sm) lines st
  = for_each (loop_body year sm)
      (filter (fun line => negb (skipped line)) lines) st.
Proof.
  revert st. induction lines as [| line lines IH]; intros st;
    [reflexivity |].
  simpl. destruct (skipped line) eqn:E; simpl.
  - rewrite (loop_body_skipped _ _ _ _ E), bind_pure. apply IH.
  - destruct (loop_body year sm st line) as [l [e | s1]]; [reflexivity |].
    unfold bind. rewrite IH. reflexivity.
Qed.

Lemma add_item_appends d evs item l evs' :
  add_item d evs item = (l, inr evs') -> prefix_of evs evs'.
Proof.
  unfold add_item. destruct (is_empty (strip item)).
  - intros H. inversion H; subst. apply prefix_of_refl.
  - destruct (make_event d (strip item)) as [x | e]; [discriminate |].
    simpl. intros H. inversion H; subst. exists [e]. reflexivity.
Qed.

Lemma add_line_appends st line l st' :
  add_line st line = (l, inr st') -> prefix_of (events st) (events st').
Proof.
  unfold add_line. destruct (current_date st) as [d |].
  - intros H. apply bind_returns in H.
    destruct H as (l1 & evs & l2 & H1 & H2 & _). inversion H2; subst. simpl.
    eapply (for_each_related (add_item d) prefix_of);
      eauto using prefix_of_refl, prefix_of_trans, add_item_appends.
  - intros H. inversion H; subst. apply prefix_of_refl.
Qed.

Lemma loop_body_appends year sm st line l st' :
  loop_body year sm st line = (l, inr st') ->
  prefix_of (events st) (events st').
Proof.
  unfold loop_body. destruct (_ || _).
  { intros H. inversion H; subst. apply prefix_of_refl. }
  destruct (match_day_header (strip line)) as [[g1 g2] |];
    [| apply add_line_appends].
  intros H.
  apply bind_returns in H. destruct H as (? & day & ? & _ & H & _).
  apply bind_returns in H. destruct H as (? & month & ? & _ & H & _).
  apply bind_returns in H. destruct H as (? & d & ? & _ & H & _).
  destruct (is_empty (strip g2)).
  - inversion H; subst. apply prefix_of_refl.
  - apply add_line_appends in H. assumption.
Qed.

(** The events come in the order of the lines: the run over the first
    lines of a text has returned, and what it had shown and found is the
    start of what the run over all the lines shows and finds. *)
Theorem earlier_events_kept year sm xs ys st l st2 :
  for_each (loop_body year sm) (xs ++ ys) st = (l, inr st2) ->
  exists l1 st1,
    for_each (loop_body year sm) xs st = (l1, inr st1)
    /\ prefix_of l1 l
    /\ prefix_of (events st) (events st1)
    /\ prefix_of (events st1) (events st2).
Proof.
  rewrite for_each_app. intros H. apply bind_returns in H.
  destruct H as (l1 & st1 & l2 & H1 & H2 & ->).
  exists l1, st1. split; [assumption |]. split; [exists l2; reflexivity |].
  split;
    eapply (for_each_related (loop_body year sm)
              (fun a b => prefix_of (events a) (events b)));
    eauto using prefix_of_refl, prefix_of_trans, loop_body_appends.
Qed.

End Lines.

Section Further.
Context {U : UnicodeData} {libc : Platform}.

Lemma datetime_sound year m day d :
  datetime year (Some m) day = inr d -> valid_date d /\ year_of d = year.
Proof.
  intros H. pose proof (datetime_valid _ _ _ _ H) as [-> _].
  unfold valid_date. simpl. auto.
Qed.

Lemma day_after_28th_sound year m d28 :
  datetime year (Some m) 28 = inr d28 ->
  valid_date (day_after_28th year m)
  /\ year_of (day_after_28th year m) = year.
Proof.
  intros H. apply datetime_valid in H. destruct H as (_ & Hy & Hm & _).
  unfold day_after_28th, valid_date.
  destruct ((m =? 2) && negb (is_leap year)) eqn:E; simpl;
    (split; [| reflexivity]); apply datetime_in_range; try lia.
  - unfold days_in_month. simpl. lia.
  - split; [lia |]. unfold days_in_month.
    destruct (m =? 2); simpl in E.
    + destruct (is_leap year); [lia | discriminate].
    + destruct (_ || _); lia.
Qed.

Lemma header_date_sound year month day l d :
  header_date year month day = (l, inr d) ->
  valid_date d /\ year_of d = year.
Proof.
  destruct month as [m |];
    [| destruct (header_date_no_month year day) as [e ->]; discriminate].
  unfold header_date.
  destruct (datetime year (Some m) day) as [[] | d0] eqn:Ed;
    try discriminate.
  - destruct (datetime year (Some m) 28) as [e | d28] eqn:E28;
      [discriminate |].
    unfold lift. rewrite bind_pure, (add_one_day_28 _ _ _ E28), bind_pure.
    simpl. intros H. inversion H; subst.
    eapply day_after_28th_sound; eauto.
  - intros H. inversion H; subst. eapply datetime_sound; eauto.
Qed.

Lemma make_event_dated d item e :
  valid_date d -> make_event d item = inr e -> dated_in (year_of d) e.
Proof.
  intros Hd He. unfold make_event in He.
  destruct (parse_time_range item) as [x | [a b]]; [discriminate |].
  inversion He; subst. exists d. simpl. repeat split; try assumption.
  destruct (is_empty (or_empty b)); auto.
Qed.

Lemma add_item_dated year d evs item l evs' :
  valid_date d -> year_of d = year ->
  add_item d evs item = (l, inr evs') ->
  Forall (dated_in year) evs -> Forall (dated_in year) evs'.
Proof.
  intros Hd Hy. unfold add_item. destruct (is_empty (strip item)).
  - intros H. inversion H; subst. auto.
  - destruct (make_event d (strip item)) as [x | e] eqn:He; [discriminate |].
    simpl. intros H Hevs. inversion H; subst.
    apply Forall_app. split; [assumption |]. constructor; [| constructor].
    eapply make_event_dated; eauto.
Qed.

Lemma add_line_dated year st line l st' :
  add_line st line = (l, inr st') ->
  state_dated year st -> state_dated year st'.
Proof.
  unfold add_line. destruct (current_date st) as [d |] eqn:Ed.
  - intros H [Hcur Hevs]. apply bind_returns in H.
    destruct H as (l1 & evs & l2 & H1 & H2 & _). inversion H2; subst.
    destruct (Hcur d Ed) as [Hv Hy].
    split; simpl.
    + intros d' E. inversion E; subst. auto.
    + eapply (for_each_invariant (add_item d) (Forall (dated_in year)));
        [| eassumption | assumption].
      intros. eapply add_item_dated; eauto.
  - intros H. inversion H; subst. auto.
Qed.

Lemma loop_body_dated year sm st line l st' :
  loop_body year sm st line = (l, inr st') ->
  state_dated year st -> state_dated year st'.
Proof.
  unfold loop_body. destruct (_ || _).
  { intros H. inversion H; subst. auto. }
  destruct (match_day_header (strip line)) as [[g1 g2] |];
    [| apply add_line_dated].
  intros H [Hcur Hevs].
  apply bind_returns in H. destruct H as (? & day & ? & _ & H & _).
  apply bind_returns in H. destruct H as (? & month & ? & _ & H & _).
  apply bind_returns in H. destruct H as (? & d & ? & Hd & H & _).
  apply header_date_sound in Hd.
  assert (Hst : state_dated year
                  {| events := events st; current_date := Some d;
                     last_day := Some day |}).
  { split; simpl; [| assumption]. intros d' E. inversion E; subst. auto. }
  destruct (is_empty (strip g2)).
  - inversion H; subst. assumption.
  - eapply add_line_dated; eauto.
Qed.

Lemma parse_schedule_dated answer text year log evs :
  parse_schedule answer text year = (log, inr evs) ->
  Forall (dated_in year) evs.
Proof.
  unfold parse_schedule. destruct (splitlines text) as [| first rest];
    [discriminate |].
  intros H.
  apply bind_returns in H. destruct H as (? & sm & ? & _ & H & _).
  apply bind_returns in H. destruct H as (? & st & ? & Hloop & H & _).
  inversion H; subst.
  assert (Hst : state_dated year st).
  { eapply (for_each_invariant (loop_body year sm) (state_dated year));
      [| eassumption |].
    - intros. eapply loop_body_dated; eauto.
    - split; [discriminate | constructor]. }
  destruct Hst as [_ Hevs]. assumption.
Qed.

(** Every event of a schedule has as start date the date, as
    [strftime] writes it, of a day that [datetime] accepts in the year
    that was given, corrected or not; its end date is either empty or the
    same date; its description and location are empty. *)
Theorem events_dated_in_year answer text year log evs e :
  parse_schedule answer text year = (log, inr evs) ->
  In e evs ->
  exists month day,
    datetime year (Some month) day = inr (mkdate year month day)
    /\ StartDate e = strftime_mdY (mkdate year month day)
    /\ (EndDate e = [] \/ EndDate e = StartDate e)
    /\ Description e = [] /\ Location e = [].
Proof.
  intros Hrun Hin. apply parse_schedule_dated in Hrun.
  rewrite Forall_forall in Hrun.
  destruct (Hrun e Hin) as (d & Hvalid & Hyear & Hsd & Hrest).
  destruct d as [y m dd]. unfold valid_date in Hvalid. simpl in *. subst y.
  exists m, dd. split; [assumption |]. split; assumption.
Qed.

(** The subject of an event is never empty, and has no white space at
    its start or at its end. *)
Theorem subject_not_empty_and_stripped answer text year log evs e :
  parse_schedule answer text year = (log, inr evs) ->
  In e evs ->
  Subject e <> [] /\ strip (Subject e) = Subject e.
Proof.
  intros Hrun Hin. apply parse_schedule_made in Hrun.
  rewrite Forall_forall in Hrun.
  destruct (Hrun e Hin) as (d & item & Hne & Hstrip & He).
  apply make_event_fields in He.
  destruct He as (a & b & _ & _ & _ & _ & _ & _ & Hsubj).
  rewrite Hsubj. destruct (is_empty (strip (sub_time_prefix item))) eqn:E.
  - split; [apply is_empty_false; assumption | assumption].
  - split; [apply is_empty_false; assumption | apply strip_idem].
Qed.

Lemma parse_time_range_start_first text a b :
  parse_time_range text = inr (a, b) -> a = None -> b = None.
Proof.
  unfold parse_time_range.
  destruct (match_time_pattern _) as [[g rest] |].
  - destruct (to_24h (g_start g) (g_start_ampm g)); [discriminate |].
    destruct (g_end g) as [e |].
    + destruct (is_empty e); [intros H; inversion H; discriminate |].
      destruct (to_24h e (g_end_ampm g)); [discriminate |].
      intros H; inversion H; discriminate.
    + intros H; inversion H; discriminate.
  - intros H. inversion H. reflexivity.
Qed.

(** An event without start time has no end time and no end date: there
    is no end without a start. *)
Theorem no_end_without_start answer text year log evs e :
  parse_schedule answer text year = (log, inr evs) ->
  In e evs ->
  StartTime e = [] ->
  EndTime e = [] /\ EndDate e = [].
Proof.
  intros Hrun Hin Hstart. apply parse_schedule_made in Hrun.
  rewrite Forall_forall in Hrun.
  destruct (Hrun e Hin) as (d & item & _ & _ & He).
  apply make_event_fields in He.
  destruct He as (a & b & Hp & _ & Hst & Het & Hed & _).
  destruct (parse_time_range_total item) as (a' & b' & Hp' & Ha & _).
  rewrite Hp in Hp'. inversion Hp'; subst a' b'.
  assert (a = None).
  { destruct a as [t |]; [| reflexivity]. exfalso.
    pose proof (wide_time_not_empty _ (Ha t eq_refl)) as Hne.
    rewrite Hst in Hstart. simpl in Hstart. subst t. discriminate. }
  rewrite (parse_time_range_start_first _ _ _ Hp H) in Het, Hed.
  simpl in Het, Hed. auto.
Qed.

(** ** More on time ranges *)

Lemma lstrip_map (f : N -> N) s :
  (forall c, is_space (f c) = is_space c) ->
  lstrip (map f s) = map f (lstrip s).
Proof.
  intros Hf. induction s as [| c s IH]; simpl; [reflexivity |].
  rewrite Hf. destruct (is_space c); auto.
Qed.

Lemma strip_map (f : N -> N) s :
  (forall c, is_space (f c) = is_space c) ->
  strip (map f s) = map f (strip s).
Proof.
  intros Hf. unfold strip, rstrip.
  rewrite (lstrip_map f s Hf), <- map_rev, (lstrip_map f _ Hf), map_rev.
  reflexivity.
Qed.

Lemma replace_dash_space c :
  is_space (if N.eqb c endash then hyphen else c) = is_space c.
Proof. destruct (N.eqb_spec c endash) as [-> |]; reflexivity. Qed.

Lemma replace_dash_idem s :
  replace endash hyphen (replace endash hyphen s) = replace endash hyphen s.
Proof.
  unfold replace. rewrite map_map. apply map_ext. intros c.
  destruct (N.eqb c endash) eqn:E; [reflexivity | rewrite E; reflexivity].
Qed.

Lemma digits_1_2_none s :
  digits_1_2 s = None <-> first_is is_digit s = false.
Proof.
  unfold digits_1_2, first_is. destruct s as [| a s1]; [split; reflexivity |].
  destruct (is_digit a); [| split; reflexivity].
  destruct s1 as [| b s2]; [split; discriminate |].
  destruct (is_digit b); split; discriminate.
Qed.

Lemma time_side_none s : time_side s = None <-> first_is is_digit s = false.
Proof.
  rewrite <- digits_1_2_none. unfold time_side.
  destruct (digits_1_2 s) as [[h s1] |]; [| split; reflexivity].
  destruct (opt_minutes s1) as [mm s2].
  destruct (opt_ampm (lstrip s2)) as [ap s3]. split; discriminate.
Qed.

(** [parse_time_range] finds no time exactly when the text, en dashes read
    as hyphens and stripped, does not start with a digit; when it does,
    there is a start time.  In neither case does it raise. *)
Theorem time_found_iff_leading_digit text :
  (first_is is_digit (strip (replace endash hyphen text)) = false ->
   parse_time_range text = inr (None, None))
  /\ (first_is is_digit (strip (replace endash hyphen text)) = true ->
      exists start end24,
        parse_time_range text = inr (Some start, end24) /\ start <> []).
Proof.
  split.
  - intros H. apply time_side_none, match_time_pattern_none in H.
    unfold parse_time_range. rewrite H. reflexivity.
  - intros H.
    destruct (match_time_pattern (strip (replace endash hyphen text)))
      as [[g rest] |] eqn:Hm.
    + destruct (parse_time_range_matched _ _ _ Hm)
        as (h & m & _ & end24 & Hp & _).
      eexists _, end24. split; [eassumption |].
      pose proof (format_d_not_empty 1 (convert_hour h (g_start_ampm g)))
        as Hf.
      destruct (format_d 2 (convert_hour h (g_start_ampm g)));
        discriminate.
    + apply match_time_pattern_none, time_side_none in Hm. congruence.
Qed.

(** White space around the text and the kind of dash make no difference
    to [parse_time_range]. *)
Theorem time_range_ignores_space_and_dash text :
  parse_time_range (strip text) = parse_time_range text
  /\ parse_time_range (replace endash hyphen text) = parse_time_range text.
Proof.
  unfold parse_time_range. split.
  - unfold replace at 1.
    rewrite <- (strip_map _ text replace_dash_space), strip_idem.
    reflexivity.
  - rewrite replace_dash_idem. reflexivity.
Qed.

Lemma convert_hour_12h h a :
  1 <= h <= 12 ->
  (lower a = lit "am" -> 0 <= convert_hour h (Some a) <= 11)
  /\ (lower a = lit "pm" -> 12 <= convert_hour h (Some a) <= 23).
Proof.
  intros Hh. split; intros Ha.
  - rewrite (convert_hour_am _ _ Ha). destruct (h =? 12) eqn:E; [lia |].
    apply Z.eqb_neq in E. lia.
  - rewrite (convert_hour_pm _ _ Ha). destruct (h =? 12) eqn:E; lia.
Qed.

(** On the hours of the 12-hour clock the conversion is one to one: am
    hours become 0 to 11, pm hours 12 to 23, and two hours with their
    markers that become the same hour are the same hour with the same
    marker. *)
Theorem twelve_hour_conversion_one_to_one h h' a a' :
  1 <= h <= 12 -> 1 <= h' <= 12 ->
  lower a = lit "am" \/ lower a = lit "pm" ->
  lower a' = lit "am" \/ lower a' = lit "pm" ->
  0 <= convert_hour h (Some a) <= 23
  /\ (lower a = lit "am" -> convert_hour h (Some a) <= 11)
  /\ (lower a = lit "pm" -> 12 <= convert_hour h (Some a))
  /\ (convert_hour h (Some a) = convert_hour h' (Some a') ->
      h = h' /\ lower a = lower a').
Proof.
  intros Hh Hh' Ha Ha'.
  pose proof (convert_hour_12h h a Hh) as [Ham Hpm].
  pose proof (convert_hour_12h h' a' Hh') as [Ham' Hpm'].
  split; [destruct Ha as [Ha | Ha]; [specialize (Ham Ha) | specialize (Hpm Ha)]; lia |].
  split; [intros E; specialize (Ham E); lia |].
  split; [intros E; specialize (Hpm E); lia |].
  intros Heq.
  destruct Ha as [Ha | Ha], Ha' as [Ha' | Ha'];
    try (specialize (Ham Ha)); try (specialize (Hpm Ha));
    try (specialize (Ham' Ha')); try (specialize (Hpm' Ha'));
    try lia;
    rewrite ?(convert_hour_am _ _ Ha), ?(convert_hour_pm _ _ Ha),
      ?(convert_hour_am _ _ Ha'), ?(convert_hour_pm _ _ Ha') in Heq;
    (split; [| congruence]);
    destruct (h =? 12) eqn:E; destruct (h' =? 12) eqn:E';
    rewrite ?Z.eqb_eq, ?Z.eqb_neq in *; lia.
Qed.

(** A time written with an hour from 1 to 12, minutes up to 59 and a
    marker, or with an hour up to 23, minutes up to 59 and no marker,
    comes out of [to_24h] as a time of day on the 24-hour clock. *)
Theorem to_24h_clock_time t h m ampm :
  time_text t h m ->
  m <= 59 ->
  (ampm = None /\ h <= 23)
  \/ (exists a, ampm = Some a /\ 1 <= h <= 12
                /\ (lower a = lit "am" \/ lower a = lit "pm")) ->
  exists t24, to_24h t ampm = inr t24 /\ is_clock_time t24 = true.
Proof.
  intros Ht Hm Hcase. rewrite (to_24h_time_text _ _ _ _ Ht).
  eexists. split; [reflexivity |].
  pose proof (time_text_range _ _ _ Ht) as [Hh0 Hm0].
  apply printed_clock_time; [| lia].
  destruct Hcase as [[-> Hh] | (a & -> & Hh & Ha)].
  - simpl. lia.
  - pose proof (convert_hour_12h h a Hh) as [Ham Hpm].
    destruct Ha as [Ha | Ha]; [specialize (Ham Ha) | specialize (Hpm Ha)];
      lia.
Qed.


(** ** More on lines *)



(** In a year that [datetime] has and with a start month from 1 to 12,
    the loop returns from every header line, with the day of the header
    as last day.  Whether it warns depends on the day alone: a day that
    the month of the header has (every day from 1 to 28 is one) gives the
    date as written and no warning; any other day (0, and every day above
    31, are such) gives one warning and the day after the 28th. *)
Theorem header_day_and_warning year sm st line day trailing :
  day_header line day trailing ->
  1 <= year <= 9999 -> 1 <= sm <= 12 ->
  exists m,
    header_month (Some sm) (last_day st) day = inr (Some m)
    /\ 1 <= m <= 12 /\ 28 <= days_in_month year m <= 31
    /\ 0 <= day <= 99
    /\ (1 <= day <= days_in_month year m ->
        exists st',
          loop_body year (Some sm) st line = ([], inr st')
          /\ current_date st' = Some (mkdate year m day)
          /\ last_day st' = Some day)
    /\ (day = 0 \/ days_in_month year m < day ->
        exists st',
          loop_body year (Some sm) st line
          = ([ShowWarning m day year (day_after_28th year m)], inr st')
          /\ current_date st' = Some (day_after_28th year m)
          /\ last_day st' = Some day).
Proof.
  intros Hh Hy Hsm.
  destruct (header_month_in_range sm (last_day st) day Hsm)
    as (m & Hmonth & Hm).
  pose proof (day_header_range _ _ _ Hh) as Hday.
  exists m. split; [assumption |]. split; [assumption |].
  split; [split; [apply days_in_month_28 | apply days_in_month_31] |].
  split; [assumption |]. split.
  - intros Hd.
    destruct (loop_body_valid _ _ _ _ _ _ _ _ Hh Hmonth
                (datetime_in_range year m day Hy Hm Hd))
      as (st' & H1 & H2 & H3).
    exists st'. auto.
  - intros Hd.
    assert (Hbad : datetime year (Some m) day = inl ValueError)
      by (apply datetime_out_of_month; try assumption; lia).
    destruct (loop_body_corrected _ _ _ _ _ _ _ _ Hh Hmonth Hbad
                (datetime_28 year m Hy Hm)) as (st' & H1 & H2 & H3 & _).
    exists st'. auto.
Qed.

Lemma loop_body_plain year sm st line :
  skipped line = false ->
  match_day_header (strip line) = None ->
  loop_body year sm st line = add_line st (strip line).
Proof.
  unfold skipped, loop_body. intros -> ->. reflexivity.
Qed.

(** Text that follows a day header on its line is read as a line of its
    own after the header, provided that, alone on a line, it would be
    neither passed over nor taken for a header. *)
Theorem trailing_text_as_next_line year sm st line bare day trailing :
  day_header line day trailing ->
  day_header bare day [] ->
  skipped trailing = false ->
  match_day_header trailing = None ->
  loop_body year sm st line
  = (st1 <- loop_body year sm st bare ;; loop_body year sm st1 trailing).
Proof.
  intros Hh Hb Hskip Hnone.
  assert (Hstrip : strip trailing = trailing).
  { destruct Hh as (g1 & g2 & _ & _ & ->). apply strip_idem. }
  assert (Hne : is_empty trailing = false).
  { unfold skipped in Hskip. rewrite Hstrip in Hskip.
    apply orb_false_elim in Hskip. tauto. }
  rewrite (loop_body_header _ _ _ _ _ _ Hh), (loop_body_header _ _ _ _ _ _ Hb).
  rewrite Hne. simpl is_empty. cbv iota.
  destruct (header_month sm (last_day st) day) as [e | month];
    [reflexivity |].
  unfold lift. rewrite !bind_pure.
  destruct (header_date year month day) as [l [e | d]]; [reflexivity |].
  rewrite bind_assoc. cbv [bind ret].
  rewrite loop_body_plain by (rewrite ?Hstrip; assumption).
  rewrite Hstrip. destruct (add_line (after_header st d day) trailing)
    as [l' r]. reflexivity.
Qed.




(** ** The characters of the fields *)

Lemma suffix_Forall (Q : N -> Prop) r s :
  suffix_of r s -> Forall Q s -> Forall Q r.
Proof. intros [p ->] H. apply Forall_app in H. tauto. Qed.

Lemma strip_Forall (Q : N -> Prop) s : Forall Q s -> Forall Q (strip s).
Proof.
  intros H. unfold strip, rstrip. apply Forall_rev.
  apply (suffix_Forall Q _ _ (lstrip_suffix _)). apply Forall_rev.
  apply (suffix_Forall Q _ _ (lstrip_suffix _)). assumption.
Qed.

Lemma dot_star_Forall (Q : N -> Prop) s : Forall Q s -> Forall Q (dot_star s).
Proof.
  induction 1 as [| c s Hc _ IH]; simpl; [constructor |].
  destruct (N.eqb c LF); [constructor | constructor; assumption].
Qed.

Lemma skip_word_suffix s : suffix_of (skip_word s) s.
Proof.
  induction s as [| c s IH]; simpl; [apply suffix_refl |].
  destruct (is_word c); [apply suffix_cons; assumption | apply suffix_refl].
Qed.

Lemma match_day_header_Forall (Q : N -> Prop) l g1 g2 :
  match_day_header l = Some (g1, g2) -> Forall Q l -> Forall Q g2.
Proof.
  unfold match_day_header.
  destruct (digits_1_2 l) as [[d s1] |] eqn:Ed; [| discriminate].
  destruct (first_is is_space s1); [| discriminate].
  destruct (first_is is_word (lstrip s1)); [| discriminate].
  intros H Hl. inversion H; subst. apply dot_star_Forall.
  apply (suffix_Forall Q _ _ (skip_word_suffix _)).
  apply (suffix_Forall Q _ _ (lstrip_suffix _)).
  apply (suffix_Forall Q _ _ (digits_1_2_suffix _ _ _ Ed)). assumption.
Qed.

Lemma re_split_from_Forall (Q : N -> Prop) s :
  Forall Q s -> forall gap cur,
  Forall Q cur -> Forall (Forall Q) (re_split_from gap cur s).
Proof.
  induction 1 as [| c s Hc Hs IH]; intros gap cur Hcur; simpl.
  - repeat constructor; assumption.
  - destruct (gap && is_space c); [auto |].
    destruct (N.eqb c bullet); [constructor; auto |].
    destruct (is_space c && first_is is_space s); [constructor; auto |].
    apply IH. apply Forall_app. split; [assumption | repeat constructor; assumption].
Qed.

Lemma re_split_from_no_bullet s :
  forall gap cur,
  ~ In bullet cur -> Forall (fun item => ~ In bullet item)
                       (re_split_from gap cur s).
Proof.
  induction s as [| c s IH]; intros gap cur Hcur; simpl.
  - repeat constructor; assumption.
  - destruct (gap && is_space c); [auto |].
    destruct (N.eqb_spec c bullet) as [-> | Hc];
      [constructor; [assumption | apply IH; intros []] |].
    destruct (is_space c && first_is is_space s);
      [constructor; [assumption | apply IH; intros []] |].
    apply IH. intros Hin. apply in_app_or in Hin.
    destruct Hin as [Hin | [Hin | []]]; [auto | congruence].
Qed.

Lemma no_bullet_Forall s :
  ~ In bullet s <-> Forall (fun c => c <> bullet) s.
Proof.
  rewrite Forall_forall. split.
  - intros H c Hc E. subst. auto.
  - intros H Hin. exact (H _ Hin eq_refl).
Qed.

Lemma sub_time_prefix_suffix item : suffix_of (sub_time_prefix item) item.
Proof.
  destruct (time_side item) as [[[[g mm] ap] s1] |] eqn:Es.
  - pose proof (sub_time_prefix_after _ _ _ _ _ Es) as Hafter.
    pose proof (time_side_shape _ _ _ _ _ Es) as (_ & Hs1 & _).
    eapply suffix_trans; [eassumption |].
    eapply suffix_trans; [apply lstrip_suffix | assumption].
  - rewrite (sub_time_prefix_no_time _ Es). apply suffix_refl.
Qed.

(** The lines of a text are made of its characters, line boundaries
    left out. *)
Lemma splitlines_from_Forall (Q : N -> Prop) n :
  forall s cur,
  (List.length s <= n)%nat ->
  Forall Q s ->
  Forall (fun c => Q c /\ is_linebreak c = false) cur ->
  Forall (Forall (fun c => Q c /\ is_linebreak c = false))
    (splitlines_from cur s).
Proof.
  induction n as [| n IH]; intros s cur Hlen Hs Hcur.
  - destruct s; [| simpl in Hlen; lia]. simpl.
    destruct (is_empty cur); repeat constructor; assumption.
  - destruct s as [| c s']; simpl.
    + destruct (is_empty cur); repeat constructor; assumption.
    + simpl in Hlen. inversion Hs as [| ? ? Hc Hs']; subst.
      destruct (N.eqb c CR).
      * destruct s' as [| c' s'']; [repeat constructor; assumption |].
        inversion Hs' as [| ? ? Hc' Hs'']; subst. simpl in Hlen.
        destruct (N.eqb c' LF); constructor; try assumption;
          apply IH; try assumption; try constructor; simpl; lia.
      * destruct (is_linebreak c) eqn:Eb.
        -- constructor; [assumption |]. apply IH; [lia | assumption | constructor].
        -- apply IH; [lia | assumption |]. apply Forall_app.
           split; [assumption | repeat constructor; assumption].
Qed.

Lemma splitlines_Forall (Q : N -> Prop) text :
  Forall Q text ->
  Forall (Forall (fun c => Q c /\ is_linebreak c = false)) (splitlines text).
Proof.
  intros H. unfold splitlines.
  apply (splitlines_from_Forall Q (List.length text)); auto.
Qed.

Lemma for_each_invariant_in {A S} (body : S -> A -> M S) (P : S -> Prop)
  xs :
  (forall s x l s', In x xs -> body s x = (l, inr s') -> P s -> P s') ->
  forall s l s', for_each body xs s = (l, inr s') -> P s -> P s'.
Proof.
  induction xs as [| x xs IH]; simpl; intros Hbody s l s' H Hs.
  - inversion H; subst; assumption.
  - apply bind_returns in H. destruct H as (l1 & a & l2 & H1 & H2 & _).
    eapply IH; [| eassumption |].
    + intros. eapply Hbody; eauto.
    + eapply Hbody; eauto.
Qed.

Lemma add_item_piece (Q : N -> Prop) d evs item l evs' :
  Forall Q item -> ~ In bullet item ->
  add_item d evs item = (l, inr evs') ->
  Forall (made_from_piece Q) evs -> Forall (made_from_piece Q) evs'.
Proof.
  intros HQ Hb. unfold add_item. destruct (is_empty (strip item)) eqn:E.
  - intros H. inversion H; subst. auto.
  - destruct (make_event d (strip item)) as [x | e] eqn:He; [discriminate |].
    simpl. intros H Hevs. inversion H; subst.
    apply Forall_app. split; [assumption |]. constructor; [| constructor].
    exists d, (strip item). split; [apply strip_Forall; assumption |].
    split; [| auto using strip_idem].
    apply no_bullet_Forall, strip_Forall, no_bullet_Forall. assumption.
Qed.

Lemma add_line_piece (Q : N -> Prop) st line l st' :
  Forall Q line ->
  add_line st line = (l, inr st') ->
  Forall (made_from_piece Q) (events st) ->
  Forall (made_from_piece Q) (events st').
Proof.
  intros HQ. unfold add_line. destruct (current_date st) as [d |].
  - intros H Hevs. apply bind_returns in H.
    destruct H as (l1 & evs & l2 & H1 & H2 & _). inversion H2; subst. simpl.
    pose proof (re_split_from_Forall Q line HQ false [] (Forall_nil _))
      as Hitems.
    pose proof (re_split_from_no_bullet line false [] (fun H => H))
      as Hnb.
    rewrite Forall_forall in Hitems, Hnb.
    eapply (for_each_invariant_in (add_item d)
              (Forall (made_from_piece Q)));
      [| eassumption | assumption].
    intros s x l0 s' Hin Hrun Hs.
    eapply add_item_piece; [apply Hitems | apply Hnb | |]; eauto.
  - intros H. inversion H; subst. auto.
Qed.

Lemma loop_body_piece (Q : N -> Prop) year sm st line l st' :
  Forall Q line ->
  loop_body year sm st line = (l, inr st') ->
  Forall (made_from_piece Q) (events st) ->
  Forall (made_from_piece Q) (events st').
Proof.
  intros HQ. unfold loop_body. destruct (_ || _).
  { intros H. inversion H; subst. auto. }
  destruct (match_day_header (strip line)) as [[g1 g2] |] eqn:Hm;
    [| apply add_line_piece, strip_Forall; assumption].
  intros H Hevs.
  apply bind_returns in H. destruct H as (? & day & ? & _ & H & _).
  apply bind_returns in H. destruct H as (? & month & ? & _ & H & _).
  apply bind_returns in H. destruct H as (? & d & ? & _ & H & _).
  destruct (is_empty (strip g2)).
  - inversion H; subst. assumption.
  - eapply (add_line_piece Q); [| eassumption | assumption].
    apply strip_Forall.
    eapply match_day_header_Forall; [eassumption |].
    apply strip_Forall. assumption.
Qed.

Lemma parse_schedule_pieces (Q : N -> Prop) answer text year l evs :
  Forall Q text ->
  parse_schedule answer text year = (l, inr evs) ->
  Forall (made_from_piece (fun c => Q c /\ is_linebreak c = false)) evs.
Proof.
  intros HQ. unfold parse_schedule.
  pose proof (splitlines_Forall Q text HQ) as Hlines.
  destruct (splitlines text) as [| first rest]; [discriminate |].
  intros H.
  apply bind_returns in H. destruct H as (? & sm & ? & _ & H & _).
  apply bind_returns in H. destruct H as (? & st & ? & Hloop & H & _).
  inversion H; subst. rewrite Forall_forall in Hlines.
  eapply (for_each_invariant_in (loop_body year sm)
            (fun s => Forall (made_from_piece _) (events s)));
    [| eassumption | constructor].
  intros s0 line0 l0 s0' Hin0 Hrun0 Hs0.
  eapply loop_body_piece; [apply Hlines | |]; eauto.
Qed.

Lemma subject_pieces (Q : N -> Prop) answer text year log evs e :
  Forall Q text ->
  parse_schedule answer text year = (log, inr evs) ->
  In e evs ->
  Forall (fun c => Q c /\ is_linebreak c = false) (Subject e)
  /\ ~ In bullet (Subject e).
Proof.
  intros Htext Hrun Hin.
  pose proof (parse_schedule_pieces _ _ _ _ _ _ Htext Hrun) as Hp.
  rewrite Forall_forall in Hp.
  destruct (Hp e Hin) as (d & item & HQ & Hb & _ & _ & He).
  apply make_event_fields in He.
  destruct He as (a & b & _ & _ & _ & _ & _ & _ & Hsubj).
  rewrite Hsubj.
  destruct (is_empty (strip (sub_time_prefix item))); [auto |].
  split.
  - apply strip_Forall.
    apply (suffix_Forall _ _ _ (sub_time_prefix_suffix item)). assumption.
  - apply no_bullet_Forall, strip_Forall.
    apply (suffix_Forall _ _ _ (sub_time_prefix_suffix item)).
    apply no_bullet_Forall. assumption.
Qed.

(** The subject of an event is made of characters of the text; none of
    them is a line boundary, and none is a bullet. *)
Theorem subject_characters answer text year log evs e :
  parse_schedule answer text year = (log, inr evs) ->
  In e evs ->
  (forall c, In c (Subject e) -> In c text /\ is_linebreak c = false)
  /\ ~ In bullet (Subject e).
Proof.
  intros Hrun Hin.
  assert (Htext : Forall (fun c => In c text) text)
    by (apply Forall_forall; auto).
  destruct (subject_pieces _ _ _ _ _ _ _ Htext Hrun Hin) as [Hchars Hb].
  split; [| assumption].
  rewrite Forall_forall in Hchars. assumption.
Qed.


(** ** The export *)

Lemma uint_digits_date u : date_text (uint_digits u).
Proof. induction u; simpl; constructor; auto. Qed.

Lemma format_d_date w n : 0 <= n -> date_text (format_d w n).
Proof.
  intros Hn. unfold format_d.
  replace (n <? 0) with false by (symmetry; apply Z.ltb_ge; lia).
  unfold zfill, date_text. apply Forall_app. split.
  - induction (w - _)%nat; simpl; constructor; auto.
  - apply uint_digits_date.
Qed.

Lemma strftime_date d : valid_date d -> date_text (strftime_mdY d).
Proof.
  intros H. apply datetime_valid in H. destruct H as (_ & Hy & Hm & Hd).
  unfold strftime_mdY, date_text.
  repeat (apply Forall_app; split);
    try (apply format_d_date; lia); repeat constructor.
Qed.

Lemma wide_time_date t : wide_time t -> date_text t.
Proof.
  intros (h & m & Hh & Hm & ->). unfold date_text.
  repeat (apply Forall_app; split);
    try (apply format_d_date; lia); repeat constructor.
Qed.

Lemma date_char_plain c :
  date_char c = true -> csv_special c = false /\ is_linebreak c = false.
Proof.
  unfold date_char. intros H. apply andb_prop in H. destruct H as [H1 H2].
  apply N.leb_le in H1, H2.
  unfold csv_special, is_linebreak, comma, dquote, CR, LF.
  split;
    repeat (apply orb_false_intro);
    try (apply N.eqb_neq; lia);
    apply andb_false_iff; right; apply N.leb_gt; lia.
Qed.

Lemma date_text_plain s : date_text s -> csv_plain s /\ no_break s.
Proof.
  intros H. split; eapply Forall_impl; try exact H; intros c Hc;
    apply date_char_plain in Hc; tauto.
Qed.

Lemma event_date_texts answer text year log evs e :
  parse_schedule answer text year = (log, inr evs) ->
  In e evs ->
  date_text (StartDate e) /\ date_text (StartTime e)
  /\ date_text (EndDate e) /\ date_text (EndTime e)
  /\ (AllDayEvent e = lit "True" \/ AllDayEvent e = lit "False").
Proof.
  intros Hrun Hin.
  pose proof (parse_schedule_dated _ _ _ _ _ Hrun) as Hdated.
  rewrite Forall_forall in Hdated.
  destruct (Hdated e Hin) as (d & Hd & _ & Hsd & Hed & _).
  apply parse_schedule_made in Hrun. rewrite Forall_forall in Hrun.
  destruct (Hrun e Hin) as (d' & item & _ & _ & He).
  apply make_event_fields in He.
  destruct He as (a & b & Hp & _ & Hst & Het & _ & Hall & _).
  destruct (parse_time_range_total item) as (a' & b' & Hp' & Ha & Hb).
  rewrite Hp in Hp'. inversion Hp'; subst a' b'.
  assert (Hstart : date_text (StartDate e))
    by (rewrite Hsd; apply strftime_date; assumption).
  split; [assumption |]. split.
  { rewrite Hst. destruct a as [t |]; [| constructor].
    apply wide_time_date, Ha. reflexivity. }
  split.
  { destruct Hed as [-> | ->]; [constructor | assumption]. }
  split.
  { rewrite Het. destruct b as [t |]; [| constructor].
    apply wide_time_date, Hb. reflexivity. }
  rewrite Hall. destruct (is_empty (or_empty a)); auto.
Qed.

(** The dates and times of an event are written with digits, slashes and
    colons only (the characters with codes 47 to 58), and its all-day
    field is ["True"] or ["False"]. *)
Theorem date_and_time_characters answer text year log evs e :
  parse_schedule answer text year = (log, inr evs) ->
  In e evs ->
  (forall c,
     In c (StartDate e ++ StartTime e ++ EndDate e ++ EndTime e) ->
     (47 <= c <= 58)%N)
  /\ (AllDayEvent e = lit "True" \/ AllDayEvent e = lit "False").
Proof.
  intros Hrun Hin.
  destruct (event_date_texts _ _ _ _ _ _ Hrun Hin)
    as (H1 & H2 & H3 & H4 & H5).
  split; [| assumption].
  assert (Hall : date_text (StartDate e ++ StartTime e ++ EndDate e
                            ++ EndTime e))
    by (unfold date_text; repeat (apply Forall_app; split); assumption).
  unfold date_text in Hall. rewrite Forall_forall in Hall.
  intros c Hc. specialize (Hall c Hc). unfold date_char in Hall.
  apply andb_prop in Hall. destruct Hall as [Hlo Hhi].
  apply N.leb_le in Hlo, Hhi. lia.
Qed.

Lemma csv_field_plain s : csv_plain s -> csv_field s = s.
Proof.
  intros H. unfold csv_field.
  replace (existsb csv_special s) with false; [reflexivity |].
  symmetry. induction H as [| c s Hc _ IH]; simpl; [reflexivity |].
  rewrite Hc, IH. reflexivity.
Qed.

(** In the row that [save_csv] writes for an event of a schedule, only
    the subject can be in quotes: the other fields are written as they
    are, and the last two are empty. *)
Theorem csv_row_of_event answer text year log evs e :
  parse_schedule answer text year = (log, inr evs) ->
  In e evs ->
  csv_row (event_values e)
  = csv_field (Subject e) ++ [comma] ++ StartDate e ++ [comma]
    ++ StartTime e ++ [comma] ++ EndDate e ++ [comma] ++ EndTime e
    ++ [comma] ++ AllDayEvent e ++ [comma; comma; CR; LF].
Proof.
  intros Hrun Hin.
  pose proof (event_date_texts _ _ _ _ _ _ Hrun Hin)
    as (H1 & H2 & H3 & H4 & H5).
  pose proof (parse_schedule_dated _ _ _ _ _ Hrun) as Hdated.
  rewrite Forall_forall in Hdated.
  destruct (Hdated e Hin) as (d & _ & _ & _ & _ & Hdesc & Hloc).
  unfold csv_row, event_values. cbn [map join_fields].
  rewrite Hdesc, Hloc.
  rewrite (csv_field_plain (StartDate e)) by (apply date_text_plain; assumption).
  rewrite (csv_field_plain (StartTime e)) by (apply date_text_plain; assumption).
  rewrite (csv_field_plain (EndDate e)) by (apply date_text_plain; assumption).
  rewrite (csv_field_plain (EndTime e)) by (apply date_text_plain; assumption).
  assert (Hall : csv_field (AllDayEvent e) = AllDayEvent e)
    by (destruct H5 as [-> | ->]; reflexivity).
  rewrite Hall. change (csv_field []) with (@nil N).
  repeat (rewrite <- app_assoc || rewrite <- app_comm_cons).
  reflexivity.
Qed.

Lemma count_char_app c a b :
  count_char c (a ++ b) = (count_char c a + count_char c b)%nat.
Proof. unfold count_char. rewrite filter_app, length_app. reflexivity. Qed.

Lemma count_char_absent c s :
  Forall (fun x => x <> c) s -> count_char c s = 0%nat.
Proof.
  unfold count_char. induction 1 as [| x s Hx _ IH]; simpl; [reflexivity |].
  destruct (N.eqb_spec c x); [congruence | assumption].
Qed.

Lemma no_break_no_LF s : no_break s -> Forall (fun x => x <> LF) s.
Proof.
  intros H. eapply Forall_impl; [| exact H]. intros c Hc E. subst.
  discriminate.
Qed.

Lemma join_fields_no_LF fields :
  Forall (fun f => count_char LF f = 0%nat) fields ->
  count_char LF (join_fields fields) = 0%nat.
Proof.
  induction 1 as [| f rest Hf Hrest IH]; [reflexivity |].
  destruct rest as [| g rest']; [assumption |].
  change (join_fields (f :: g :: rest'))
    with (f ++ comma :: join_fields (g :: rest')).
  rewrite count_char_app, Hf.
  change (comma :: join_fields (g :: rest'))
    with ([comma] ++ join_fields (g :: rest')).
  rewrite count_char_app, IH. reflexivity.
Qed.

Lemma csv_field_no_LF s : no_break s -> count_char LF (csv_field s) = 0%nat.
Proof.
  intros H. apply no_break_no_LF in H. apply count_char_absent.
  unfold csv_field. destruct (existsb csv_special s); [| assumption].
  constructor; [discriminate |]. apply Forall_app. split.
  - induction H as [| c s Hc _ IH]; simpl; [constructor |].
    destruct (N.eqb c dquote).
    + repeat constructor; try discriminate. assumption.
    + constructor; assumption.
  - repeat constructor. discriminate.
Qed.

(** An event of a schedule takes one line of the file and one line of the
    preview: the file has one line feed for the header and one for every
    event, and the preview one for every event. *)
Theorem one_line_per_event answer text year log evs :
  parse_schedule answer text year = (log, inr evs) ->
  count_char LF (csv_text evs) = S (List.length evs)
  /\ count_char LF (preview_text evs) = List.length evs.
Proof.
  intros Hrun.
  assert (Hrow : forall e, In e evs ->
            count_char LF (csv_row (event_values e)) = 1%nat
            /\ count_char LF (preview_line e) = 1%nat).
  { intros e Hin.
    pose proof (event_date_texts _ _ _ _ _ _ Hrun Hin)
      as (H1 & H2 & H3 & H4 & H5).
    pose proof (subject_pieces (fun _ => True) _ _ _ _ _ _
                  (proj2 (Forall_forall _ _) (fun _ _ => I)) Hrun Hin)
      as [Hs _].
    assert (Hsubj : no_break (Subject e))
      by (eapply Forall_impl; [| exact Hs]; simpl; tauto).
    pose proof (parse_schedule_dated _ _ _ _ _ Hrun) as Hdated.
    rewrite Forall_forall in Hdated.
    destruct (Hdated e Hin) as (d & _ & _ & _ & _ & Hdesc & Hloc).
    apply date_text_plain in H1, H2, H3, H4.
    destruct H1 as [_ H1], H2 as [_ H2], H3 as [_ H3], H4 as [_ H4].
    assert (H6 : no_break (AllDayEvent e))
      by (destruct H5 as [-> | ->]; repeat constructor).
    split.
    - unfold csv_row. rewrite count_char_app, join_fields_no_LF;
        [reflexivity |].
      unfold event_values. rewrite Hdesc, Hloc.
      repeat constructor; apply csv_field_no_LF;
        solve [assumption | constructor].
    - unfold preview_line. repeat rewrite count_char_app.
      rewrite !(count_char_absent LF _ (no_break_no_LF _ H1)),
        !(count_char_absent LF _ (no_break_no_LF _ H2)),
        !(count_char_absent LF _ (no_break_no_LF _ H4)),
        !(count_char_absent LF _ (no_break_no_LF _ Hsubj)).
      reflexivity. }
  unfold csv_text, preview_text. rewrite count_char_app.
  clear Hrun. induction evs as [| e evs IH]; [split; reflexivity |].
  destruct (Hrow e (or_introl eq_refl)) as [Hc Hp].
  destruct IH as [IHc IHp]; [intros; apply Hrow; right; assumption |].
  simpl. rewrite !count_char_app, Hc, Hp, IHp.
  change (count_char LF (csv_row fieldnames)) with 1%nat in *.
  simpl in IHc. split; [| reflexivity]. lia.
Qed.


(** ** [generate_csv] *)

Lemma splitlines_from_newline n :
  forall s cur, (List.length s <= n)%nat ->
  splitlines_from cur (s ++ [LF]) <> [].
Proof.
  induction n as [| n IH]; intros s cur Hlen.
  - destruct s; [discriminate | simpl in Hlen; lia].
  - destruct s as [| c s']; [discriminate |]. simpl in Hlen.
    simpl. destruct (N.eqb c CR).
    + destruct s' as [| c' s'']; [discriminate |]. simpl.
      destruct (N.eqb c' LF); discriminate.
    + destruct (is_linebreak c); [discriminate |]. apply IH. lia.
Qed.

(** A text that ends with a newline has a first line. *)
Lemma splitlines_newline s : splitlines (s ++ [LF]) <> [].
Proof. apply (splitlines_from_newline (List.length s)). lia. Qed.

Lemma not_in_parsing c log : ~ In (WriteCsv c) (map Parsing log).
Proof.
  intros H. apply in_map_iff in H. destruct H as (e & He & _). discriminate.
Qed.

(** [save_csv] writes nothing but the file of its events. *)
Lemma save_csv_writes m evs content :
  In (WriteCsv content) (fst (save_csv m evs)) -> content = csv_text evs.
Proof.
  unfold save_csv, call, write_rows, and_then.
  destruct (m Makedirs), (m Open), (m Write),
    (forallb is_scalar (csv_text evs)), (m Showinfo), (m Startfile);
    simpl; intros H;
    repeat (destruct H as [H | H]; try discriminate);
    try contradiction; inversion H; reflexivity.
Qed.

(** On a willing machine [save_csv] returns when the rows can be
    encoded. *)
Lemma save_csv_returns m evs :
  (forall c, m c = None) ->
  forallb is_scalar (csv_text evs) = true ->
  save_csv m evs
  = ([MakeDirs; CreateFile; WriteCsv (csv_text evs); ShowInfo; OpenFile],
     inr tt).
Proof.
  intros Hm Henc. unfold save_csv, call, write_rows, and_then.
  rewrite !Hm, Henc. reflexivity.
Qed.

Lemma encodable_forallb s : forallb is_scalar s = true -> encodable s.
Proof.
  intros H. apply Forall_forall. apply forallb_forall. assumption.
Qed.

Lemma encodable_app a b : encodable a -> encodable b -> encodable (a ++ b).
Proof. intros Ha Hb. apply Forall_app. split; assumption. Qed.

Lemma date_text_encodable s : date_text s -> encodable s.
Proof.
  intros H. eapply Forall_impl; [| exact H]. intros c Hc.
  unfold date_char in Hc. apply andb_prop in Hc. destruct Hc as [_ Hc].
  apply N.leb_le in Hc. unfold is_scalar.
  replace (c <? 55296)%N with true by (symmetry; apply N.ltb_lt; lia).
  reflexivity.
Qed.

Lemma csv_field_encodable s : encodable s -> encodable (csv_field s).
Proof.
  intros H. unfold csv_field. destruct (existsb csv_special s);
    [| assumption].
  constructor; [reflexivity |]. apply encodable_app;
    [| repeat constructor].
  induction H as [| c s Hc _ IH]; simpl; [constructor |].
  apply encodable_app; [| assumption].
  destruct (N.eqb c dquote); repeat constructor; assumption.
Qed.

Lemma join_fields_encodable fields :
  Forall encodable fields -> encodable (join_fields fields).
Proof.
  induction 1 as [| f rest Hf Hrest IH]; [constructor |].
  destruct rest as [| g rest']; [assumption |].
  change (join_fields (f :: g :: rest'))
    with (f ++ comma :: join_fields (g :: rest')).
  apply encodable_app; [assumption |]. constructor; [reflexivity |].
  assumption.
Qed.

Lemma csv_row_encodable values :
  Forall encodable values -> encodable (csv_row values).
Proof.
  intros H. unfold csv_row. apply encodable_app; [| repeat constructor].
  apply join_fields_encodable. induction H; constructor; auto.
  apply csv_field_encodable. assumption.
Qed.

(** The file of a schedule can be encoded when its text can. *)
Lemma csv_text_encodable answer text year log evs :
  encodable text ->
  parse_schedule answer text year = (log, inr evs) ->
  encodable (csv_text evs).
Proof.
  intros Htext Hrun.
  assert (Hrow : forall e, In e evs -> encodable (csv_row (event_values e))).
  { intros e Hin.
    pose proof (event_date_texts _ _ _ _ _ _ Hrun Hin)
      as (H1 & H2 & H3 & H4 & H5).
    pose proof (subject_pieces _ _ _ _ _ _ _ Htext Hrun Hin) as [Hs _].
    pose proof (parse_schedule_dated _ _ _ _ _ Hrun) as Hdated.
    rewrite Forall_forall in Hdated.
    destruct (Hdated e Hin) as (d & _ & _ & _ & _ & Hdesc & Hloc).
    apply csv_row_encodable. unfold event_values. rewrite Hdesc, Hloc.
    repeat constructor; try (apply date_text_encodable; assumption).
    - eapply Forall_impl; [| exact Hs]. simpl. tauto.
    - destruct H5 as [-> | ->]; repeat constructor. }
  unfold csv_text. apply encodable_app.
  - apply encodable_forallb. reflexivity.
  - clear Hrun. induction evs as [| e evs IH]; [constructor |].
    simpl. apply encodable_app.
    + apply Hrow. left. reflexivity.
    + apply IH. intros e' He'. apply Hrow. right. assumption.
Qed.

Section GuiFacts.
Variable isdigit : str -> bool.

(** [generate_csv] writes the file only when the year is made of digits,
    the parser has returned at least one event and the preview was
    accepted; and what it writes is the file of exactly those events. *)
Theorem file_written_only_after_preview m text year answer ok content :
  In (WriteCsv content) (fst (generate_csv isdigit m text year answer ok)) ->
  isdigit year = true /\ ok = true
  /\ exists y log evs,
      py_int year = inr y
      /\ parse_schedule answer text y = (log, inr evs)
      /\ evs <> [] /\ content = csv_text evs.
Proof.
  unfold generate_csv. destruct (isdigit year); simpl;
    [| intros [H | []]; discriminate].
  destruct (py_int year) as [e | y]; [intros [] |].
  destruct (parse_schedule answer text y) as [log [e | evs]] eqn:Hp.
  { intros H. exfalso. exact (not_in_parsing _ _ H). }
  destruct evs as [| e evs]; simpl.
  { intros H. apply in_app_or in H.
    destruct H as [H | [H | []]];
      [exfalso; exact (not_in_parsing _ _ H) | discriminate]. }
  destruct ok; simpl.
  - destruct (save_csv m (e :: evs)) as [l r] eqn:Hsave. simpl.
    intros H. apply in_app_or in H. destruct H as [H | H].
    + apply in_app_or in H. destruct H as [H | [H | []]];
        [exfalso; exact (not_in_parsing _ _ H) | discriminate].
    + split; [reflexivity |]. split; [reflexivity |].
      exists y, log, (e :: evs). repeat split; try assumption;
        [discriminate |].
      apply (save_csv_writes m). rewrite Hsave. assumption.
  - intros H. apply in_app_or in H.
    destruct H as [H | [H | []]];
      [exfalso; exact (not_in_parsing _ _ H) | discriminate].
Qed.

(** On a text that has a line but no day header, and a year text that
    [isdigit] accepts and [int] converts, [generate_csv] reports that no
    events were found: no preview is shown, the machine is not asked for
    anything and no file is written. *)
Theorem no_header_no_file m text year y answer ok first rest :
  isdigit year = true ->
  py_int year = inr y ->
  splitlines text = first :: rest ->
  (forall line, In line (first :: rest) ->
                match_day_header (strip line) = None) ->
  generate_csv isdigit m text year answer ok
  = (map Parsing (fst (detect_month answer first))
     ++ [ShowError (lit "No events found")], inr tt).
Proof.
  intros Hd Hy Hlines Hnone. unfold generate_csv. rewrite Hd, Hy. simpl.
  rewrite (parse_schedule_lines _ _ _ _ _ Hlines).
  destruct (detect_month_returns answer first) as (l & sm & ->).
  unfold bind at 1.
  rewrite (lines_without_header y sm (first :: rest) init_state eq_refl
             Hnone).
  simpl. rewrite app_nil_r. reflexivity.
Qed.

(** [generate_csv] does not raise on the text of the text box, which ends
    with a newline, when [isdigit] accepts the year text and [int]
    converts it to a year from 1 to 9999, the month is named on the first
    line or answered with a number from 1 to 12, and, should the preview
    be accepted, no call of [save_csv] is refused by the machine and the
    text has only characters that UTF-8 encodes. *)
Theorem generate_csv_returns m typed year y answer ok :
  isdigit year = true ->
  py_int year = inr y ->
  1 <= y <= 9999 ->
  (forall first rest,
     splitlines (typed ++ [LF]) = first :: rest ->
     match_month (strip first) = None ->
     exists month, answer = Some month /\ 1 <= month <= 12) ->
  (ok = true -> (forall c, m c = None) /\ encodable typed) ->
  exists log,
    generate_csv isdigit m (typed ++ [LF]) year answer ok = (log, inr tt).
Proof.
  intros Hd Hy Hrange Hanswer Hok. unfold generate_csv. rewrite Hd, Hy.
  simpl.
  destruct (splitlines (typed ++ [LF])) as [| first rest] eqn:Hlines.
  { exfalso. exact (splitlines_newline typed Hlines). }
  destruct (parse_schedule_returns answer _ y first rest Hlines Hrange
              (Hanswer first rest eq_refl)) as (l & evs & Hrun).
  rewrite Hrun.
  destruct (is_nil evs); [eexists; reflexivity |].
  destruct ok; [| eexists; reflexivity].
  destruct (Hok eq_refl) as [Hm Henc].
  assert (Hrows : forallb is_scalar (csv_text evs) = true).
  { apply forallb_forall. apply Forall_forall.
    eapply csv_text_encodable; [| exact Hrun].
    apply encodable_app; [assumption | repeat constructor]. }
  rewrite (save_csv_returns m evs Hm Hrows). eexists. reflexivity.
Qed.

End GuiFacts.


(** ** Letter case *)

Lemma lower_char_cases c :
  (lower_char c = c /\ ~ (65 <= c <= 90)%N)
  \/ (lower_char c = (c + 32)%N /\ (65 <= c <= 90)%N).
Proof.
  unfold lower_char. destruct ((65 <=? c) && (c <=? 90))%N eqn:E.
  - right. apply andb_prop in E. destruct E as [E1 E2].
    apply N.leb_le in E1, E2. split; [reflexivity | lia].
  - left. split; [reflexivity |]. intros [H1 H2].
    apply N.leb_le in H1, H2. rewrite H1, H2 in E. discriminate.
Qed.

Lemma letter_not_space c : (65 <= c <= 122)%N -> is_space c = false.
Proof.
  intros H. unfold is_space.
  repeat (apply orb_false_intro);
    try (apply N.eqb_neq; lia);
    apply andb_false_iff;
    solve [left; apply N.leb_gt; lia | right; apply N.leb_gt; lia].
Qed.

Lemma lower_char_space c : is_space (lower_char c) = is_space c.
Proof.
  destruct (lower_char_cases c) as [[-> _] | [-> H]]; [reflexivity |].
  rewrite !letter_not_space by lia. reflexivity.
Qed.

Lemma letter_not_digit c : (65 <= c <= 122)%N -> digit_value c = None.
Proof.
  intros H. unfold digit_value.
  replace (c <? 128)%N with true by (symmetry; apply N.ltb_lt; lia).
  replace (c <=? 57)%N with false by (symmetry; apply N.leb_gt; lia).
  rewrite andb_false_r. reflexivity.
Qed.

Lemma lower_char_digit c : is_digit (lower_char c) = is_digit c.
Proof.
  unfold is_digit.
  destruct (lower_char_cases c) as [[-> _] | [-> H]]; [reflexivity |].
  rewrite !letter_not_digit by lia. reflexivity.
Qed.

Lemma lower_char_other c x :
  ~ (65 <= x <= 122)%N -> N.eqb (lower_char c) x = N.eqb c x.
Proof.
  intros Hx. destruct (lower_char_cases c) as [[-> _] | [-> H]];
    [reflexivity |].
  destruct (N.eqb_spec (c + 32) x), (N.eqb_spec c x); try reflexivity; lia.
Qed.

Lemma lower_char_idem c : lower_char (lower_char c) = lower_char c.
Proof.
  destruct (lower_char_cases c) as [[E _] | [E H]]; rewrite E.
  - assumption.
  - destruct (lower_char_cases (c + 32)) as [[E' _] | [_ H']];
      [assumption | lia].
Qed.

Lemma lower_idem s : lower (lower s) = lower s.
Proof.
  unfold lower. rewrite map_map. apply map_ext. apply lower_char_idem.
Qed.

Lemma lower_digit c : is_digit c = true -> lower_char c = c.
Proof.
  intros H. destruct (lower_char_cases c) as [[E _] | [_ Hc]];
    [assumption |].
  unfold is_digit in H. rewrite letter_not_digit in H by lia. discriminate.
Qed.

Lemma digits_1_2_lower s :
  digits_1_2 (lower s)
  = match digits_1_2 s with
    | Some (h, rest) => Some (h, lower rest)
    | None => None
    end.
Proof.
  unfold lower, digits_1_2. destruct s as [| a [| b s2]]; simpl;
    rewrite ?lower_char_digit; try reflexivity.
  - destruct (is_digit a) eqn:Ea; [| reflexivity].
    rewrite (lower_digit _ Ea). reflexivity.
  - destruct (is_digit a) eqn:Ea; [| reflexivity].
    rewrite (lower_digit _ Ea).
    destruct (is_digit b) eqn:Eb; [rewrite (lower_digit _ Eb) |]; reflexivity.
Qed.

Lemma opt_minutes_lower s :
  opt_minutes (lower s)
  = (fst (opt_minutes s), lower (snd (opt_minutes s))).
Proof.
  unfold lower, opt_minutes. destruct s as [| c [| a [| b r]]]; try reflexivity.
  cbn [map]. rewrite !lower_char_digit.
  rewrite (lower_char_other c colon) by (unfold colon; lia).
  destruct (N.eqb_spec c colon) as [-> | Hc]; [| reflexivity]. simpl.
  destruct (is_digit a) eqn:Ea; [| reflexivity].
  destruct (is_digit b) eqn:Eb; [| reflexivity].
  rewrite (lower_digit _ Ea), (lower_digit _ Eb). reflexivity.
Qed.

Lemma opt_ampm_lower s :
  opt_ampm (lower s)
  = (option_map lower (fst (opt_ampm s)), lower (snd (opt_ampm s))).
Proof.
  unfold lower, opt_ampm. destruct s as [| a [| m r]]; try reflexivity.
  cbn [map]. rewrite !lower_char_idem.
  destruct (_ && _); reflexivity.
Qed.

Lemma lstrip_lower s : lstrip (lower s) = lower (lstrip s).
Proof. apply lstrip_map, lower_char_space. Qed.

Lemma time_side_lower s :
  time_side (lower s)
  = match time_side s with
    | Some (g, mm, ap, rest) => Some (g, mm, option_map lower ap, lower rest)
    | None => None
    end.
Proof.
  unfold time_side. rewrite digits_1_2_lower.
  destruct (digits_1_2 s) as [[h s1] |]; [| reflexivity].
  rewrite opt_minutes_lower. destruct (opt_minutes s1) as [mm s2]. simpl.
  rewrite lstrip_lower, opt_ampm_lower.
  destruct (opt_ampm (lstrip s2)) as [ap s3]. reflexivity.
Qed.

Lemma convert_hour_lower h ap :
  convert_hour h (option_map lower ap) = convert_hour h ap.
Proof.
  destruct ap as [a |]; [| reflexivity]. simpl.
  rewrite lower_idem. destruct a; reflexivity.
Qed.

Lemma to_24h_lower t ap : to_24h t (option_map lower ap) = to_24h t ap.
Proof.
  unfold to_24h.
  destruct (split_on colon [] _) as [| hs [| ms [| x r]]]; try reflexivity.
  destruct (py_int hs); [reflexivity |].
  destruct (py_int ms); [reflexivity |].
  rewrite convert_hour_lower. reflexivity.
Qed.

Lemma lower_replace_dash s :
  replace endash hyphen (lower s) = lower (replace endash hyphen s).
Proof.
  unfold replace, lower. rewrite !map_map. apply map_ext. intros c.
  rewrite (lower_char_other c endash) by (unfold endash; lia).
  destruct (N.eqb c endash); reflexivity.
Qed.

Lemma parse_time_range_lower text :
  parse_time_range (lower text) = parse_time_range text.
Proof.
  unfold parse_time_range.
  rewrite lower_replace_dash.
  change (strip (lower ?x)) with (strip (map lower_char x)).
  rewrite (strip_map lower_char _ lower_char_space).
  fold (lower (strip (replace endash hyphen text))).
  generalize (strip (replace endash hyphen text)). intros s.
  unfold match_time_pattern. rewrite time_side_lower.
  destruct (time_side s) as [[[[g mm] ap] s1] |]; [| reflexivity].
  rewrite lstrip_lower.
  destruct (lstrip s1) as [| c s2]; cbn [lower map].
  { cbn [g_start g_start_ampm g_end]. rewrite to_24h_lower. reflexivity. }
  rewrite (lower_char_other c hyphen) by (unfold hyphen; lia).
  destruct (N.eqb c hyphen).
  - fold (lower s2). rewrite lstrip_lower, time_side_lower.
    destruct (time_side (lstrip s2)) as [[[[e emin] eap] r] |];
      cbn [g_start g_start_ampm g_end g_end_ampm];
      rewrite !to_24h_lower; reflexivity.
  - cbn [g_start g_start_ampm g_end]. rewrite to_24h_lower. reflexivity.
Qed.

(** The letter case of the text makes no difference to
    [parse_time_range]: two texts that differ only in the case of ASCII
    letters give the same times. *)
Theorem time_range_ignores_letter_case text text' :
  lower text = lower text' ->
  parse_time_range text = parse_time_range text'.
Proof.
  intros H. rewrite <- (parse_time_range_lower text),
    <- (parse_time_range_lower text'), H. reflexivity.
Qed.


(** ** All-day events *)

Lemma first_char_replace_dash s :
  first_is is_digit s = false ->
  first_is is_digit (replace endash hyphen s) = false.
Proof.
  destruct s as [| c s]; [reflexivity |]. simpl.
  destruct (N.eqb c endash); [reflexivity | auto].
Qed.

(** A fragment that does not start with a digit gives an all-day event
    whose subject is the fragment as it is, stripped: no start, no end,
    and nothing taken off the text. *)
Theorem all_day_event_keeps_text d evs fragment :
  is_empty (strip fragment) = false ->
  first_is is_digit (strip fragment) = false ->
  add_item d evs fragment
  = ([], inr (evs ++ [{| Subject := strip fragment;
                         StartDate := strftime_mdY d;
                         StartTime := [];
                         EndDate := [];
                         EndTime := [];
                         AllDayEvent := lit "True";
                         Description := [];
                         Location := [] |}])).
Proof.
  intros Hne Hfirst. unfold add_item. rewrite Hne.
  unfold make_event, parse_time_range.
  assert (Hitem : strip (replace endash hyphen (strip fragment))
                  = replace endash hyphen (strip fragment)).
  { unfold replace. rewrite (strip_map _ _ replace_dash_space), strip_idem.
    reflexivity. }
  rewrite Hitem.
  assert (Hnone : match_time_pattern (replace endash hyphen (strip fragment))
                  = None).
  { apply match_time_pattern_none, time_side_none, first_char_replace_dash.
    assumption. }
  rewrite Hnone.
  rewrite (sub_time_prefix_no_time (strip fragment))
    by (apply time_side_none; assumption).
  rewrite strip_idem, Hne. reflexivity.
Qed.


End Further.

(** * Runs of the parser

    The runs below use the tables of a runtime that knows ASCII only and
    the C library of Linux; the texts are ASCII and the years have four
    digits, so neither makes a difference. *)

Module Runs.

#[local] Existing Instance ascii_only.
#[local] Existing Instance glibc.

Ltac run := vm_compute; reflexivity.

Lemma january_events :
  parse_schedule None january 2026 = ([], inr [practice; game]).
Proof. run. Qed.

Lemma header_31_fri :
  day_header (lit "31 Fri Practice") 31 (lit "Practice").
Proof. exists (lit "31"), (lit " Practice"). repeat split; run. Defined.

Lemma header_1_tue : day_header (lit "1 Tue y") 1 (lit "y").
Proof. exists (lit "1"), (lit " y"). repeat split; run. Defined.


(** C1 fails for day 31 of April: the date becomes April 29, not May 1. *)
Lemma day_31_of_april_is_not_first_of_may :
  datetime 2026 (Some 4) 31 = inl ValueError
  /\ days_in_month 2026 4 = 30
  /\ (exists evs,
        parse_schedule None
          (text_of_lines [lit "Apr 2026"; lit "31 Fri Practice"]) 2026
        = ([ShowWarning 4 31 2026 (mkdate 2026 4 29)], inr evs)
        /\ map StartDate evs = [lit "04/29/2026"])
  /\ mkdate 2026 4 29 <> first_of_next_month 2026 4.
Proof.
  split; [run |]. split; [run |]. split.
  - eexists. split; run.
  - discriminate.
Qed.

Lemma invalid_day_resolves_to_day_after_28th_witness :
  day_header (lit "31 Fri Practice") 31 (lit "Practice")
  /\ datetime 2026 (Some 4) 31 = inl ValueError
  /\ exists st',
      loop_body 2026 (Some 4) init_state (lit "31 Fri Practice")
      = ([ShowWarning 4 31 2026 (mkdate 2026 4 29)], inr st')
      /\ current_date st' = Some (mkdate 2026 4 29).
Proof.
  split; [exact header_31_fri |]. split; [reflexivity |].
  exact (proj1 (invalid_day_resolves_to_day_after_28th
                  2026 (Some 4) init_state (lit "31 Fri Practice") 31
                  (lit "Practice") 4 (mkdate 2026 4 28)
                  header_31_fri eq_refl eq_refl eq_refl)).
Defined.

Lemma time_range_sides_independent_witness :
  exists g,
    match_time_pattern (strip (replace endash hyphen (lit "9-10pm")))
    = Some (g, [])
    /\ g_start_ampm g = None /\ g_end_ampm g = Some (lit "pm")
    /\ exists h m,
        time_text (g_start g) h m
        /\ exists end24,
            parse_time_range (lit "9-10pm")
            = inr (Some (format_d 2 (convert_hour h None)
                         ++ [colon] ++ format_d 2 m), end24)
            /\ exists h' m',
                time_text (lit "10") h' m'
                /\ end24
                   = Some (format_d 2 (convert_hour h' (Some (lit "pm")))
                           ++ [colon] ++ format_d 2 m').
Proof.
  eexists. split; [run |]. split; [reflexivity |]. split; [reflexivity |].
  exact (proj1 (proj1 time_range_sides_independent (lit "9-10pm") _ []
                  eq_refl)).
Defined.

Lemma month_rollover_witness :
  day_header (lit "1 Tue y") 1 (lit "y")
  /\ last_day (seen (mkdate 2026 12 28)) = Some 28
  /\ header_month (Some 12) (Some 28) 1 = inr (Some 1)
  /\ exists st',
      loop_body 2026 (Some 12) (seen (mkdate 2026 12 28)) (lit "1 Tue y")
      = ([], inr st')
      /\ current_date st' = Some (mkdate 2026 1 1).
Proof.
  split; [exact header_1_tue |]. split; [reflexivity |].
  pose proof (month_rollover 2026 12 (seen (mkdate 2026 12 28))
                (lit "1 Tue y") 1 (lit "y") 28 header_1_tue eq_refl eq_refl)
    as (Hm & _ & _ & _ & Hvalid & _).
  split; [exact Hm |].
  exact (Hvalid (mkdate 2026 1 1) eq_refl).
Defined.

Lemma all_day_and_end_date_invariant_witness :
  parse_schedule None january 2026 = ([], inr [practice; game])
  /\ In game [practice; game]
  /\ (AllDayEvent game = lit "True" <-> StartTime game = [])
  /\ (EndDate game <> [] <-> EndTime game <> []).
Proof.
  split; [exact january_events |].
  split; [right; left; reflexivity |].
  exact (all_day_and_end_date_invariant None january 2026 []
           [practice; game] game january_events
           (or_intror (or_introl eq_refl))).
Defined.

(** C9 fails for a text that starts with a blank line: the first
    non-empty line names January, yet the user is asked, and the answer is
    the month of the dates. *)
Lemma leading_blank_line_prompts :
  let text := text_of_lines [[]; lit "Jan 2026"; lit "23 Mon Practice"] in
  first_nonempty_line (splitlines text) = Some (lit "Jan 2026")
  /\ match_month (strip (lit "Jan 2026")) = Some (lit "Jan")
  /\ exists evs,
      parse_schedule (Some 5) text 2026 = ([AskInteger], inr evs)
      /\ map StartDate evs = [lit "05/23/2026"].
Proof.
  split; [run |]. split; [run |]. eexists. split; run.
Qed.

Lemma month_from_first_line_witness :
  splitlines january
  = [lit "Jan 2026"; lit "23 Mon 10am-11am Practice"; lit "24 Tue  Game 7pm"]
  /\ nth_error month_abbrs (Z.to_nat (1 - 1)) = Some (lit "Jan")
  /\ is_prefix (lit "Jan") (strip (lit "Jan 2026")) = true
  /\ detect_month None (lit "Jan 2026") = ([], inr (Some 1))
  /\ ~ In AskInteger (fst (parse_schedule None january 2026)).
Proof.
  split; [reflexivity |]. split; [reflexivity |]. split; [reflexivity |].
  apply (proj1 (proj2 (month_from_first_line None january 2026
                         (lit "Jan 2026")
                         [lit "23 Mon 10am-11am Practice";
                          lit "24 Tue  Game 7pm"]
                         eq_refl))
           1 (lit "Jan")); [lia | reflexivity | reflexivity].
Defined.


(** A hyphen left after the time goes with it: the subject pattern takes
    it, the time pattern does not. *)
Example dangling_hyphen :
  match_time_pattern (lit "10am - Practice")
  = Some ({| g_start := lit "10"; g_start_min := None;
             g_start_ampm := Some (lit "am");
             g_end := None; g_end_min := None; g_end_ampm := None |},
          lit "- Practice")
  /\ strip (sub_time_prefix (lit "10am - Practice")) = lit "Practice".
Proof. split; run. Qed.

(** The subject keeps the end of a range written with an en dash, which
    [parse_time_range] reads as a hyphen. *)
Example en_dash_range :
  parse_time_range (lit "9" ++ [endash] ++ lit "10pm Practice")
  = inr (Some (lit "09:00"), Some (lit "22:00"))
  /\ strip (sub_time_prefix (lit "9" ++ [endash] ++ lit "10pm Practice"))
     = [endash] ++ lit "10pm Practice".
Proof. split; run. Qed.

(** A corrected date can leave the month of its header: after the 31st of
    January, day 30 is a header of February, whose 28th plus one day is
    the first of March in 2026. *)
Example corrected_date_in_march :
  exists evs,
    parse_schedule None
      (text_of_lines [lit "Jan 2026"; lit "31 Sat a"; lit "30 Sun b"]) 2026
    = ([ShowWarning 2 30 2026 (mkdate 2026 3 1)], inr evs)
    /\ map StartDate evs = [lit "01/31/2026"; lit "03/01/2026"].
Proof. eexists. split; run. Qed.

(** The month does not add up over several rollovers, and falls back:
    with March as start month, the headers 31, 30, 29, 30 are dated in
    March, April, April and March. *)
Example rollover_does_not_add_up :
  exists evs,
    parse_schedule None
      (text_of_lines [lit "Mar 2026"; lit "31 Tue a"; lit "30 Thu b";
                      lit "29 Wed c"; lit "30 Mon d"]) 2026
    = ([], inr evs)
    /\ map StartDate evs
       = [lit "03/31/2026"; lit "04/30/2026"; lit "04/29/2026";
          lit "03/30/2026"].
Proof. eexists. split; run. Qed.

End Runs.

(** * Runs for the further properties *)

Module Cases.

#[local] Existing Instance ascii_only.
#[local] Existing Instance glibc.

Ltac run := vm_compute; reflexivity.

Lemma header_0_mon : day_header (lit "0 Mon") 0 [].
Proof. exists (lit "0"), []. repeat split; run. Defined.

Lemma header_23_mon : day_header (lit "23 Mon") 23 [].
Proof. exists (lit "23"), []. repeat split; run. Defined.

Lemma header_23_mon_practice :
  day_header (lit "23 Mon Practice") 23 (lit "Practice").
Proof. exists (lit "23"), (lit " Practice"). repeat split; run. Defined.

Lemma no_header_no_events_witness :
  splitlines (text_of_lines [[]; lit "* note"; lit "hello"])
  = [[]; lit "* note"; lit "hello"]
  /\ parse_schedule None (text_of_lines [[]; lit "* note"; lit "hello"]) 2026
     = ([AskInteger], inr []).
Proof.
  split; [reflexivity |].
  refine (no_header_no_events None
            (text_of_lines [[]; lit "* note"; lit "hello"]) 2026 _).
  intros line H. vm_compute in H.
  destruct H as [<- | [<- | [<- | []]]]; reflexivity.
Defined.

Lemma earlier_events_kept_witness :
  exists l1 st1,
    for_each (loop_body 2026 (Some 1))
      [lit "Jan 2026"; lit "23 Mon 10am-11am Practice"] init_state
    = (l1, inr st1)
    /\ prefix_of l1 []
    /\ prefix_of (events init_state) (events st1)
    /\ prefix_of (events st1) [practice; game].
Proof.
  refine (earlier_events_kept 2026 (Some 1)
            [lit "Jan 2026"; lit "23 Mon 10am-11am Practice"]
            [lit "24 Tue  Game 7pm"] init_state []
            {| events := [practice; game];
               current_date := Some (mkdate 2026 1 24);
               last_day := Some 24 |} _).
  run.
Defined.

Lemma events_dated_in_year_witness :
  In practice [practice; game]
  /\ exists month day,
       datetime 2026 (Some month) day = inr (mkdate 2026 month day)
       /\ StartDate practice = strftime_mdY (mkdate 2026 month day)
       /\ (EndDate practice = [] \/ EndDate practice = StartDate practice)
       /\ Description practice = [] /\ Location practice = [].
Proof.
  split; [left; reflexivity |].
  exact (events_dated_in_year None january 2026 [] [practice; game] practice
           Runs.january_events (or_introl eq_refl)).
Defined.

Lemma subject_not_empty_and_stripped_witness :
  In practice [practice; game]
  /\ Subject practice <> [] /\ strip (Subject practice) = Subject practice.
Proof.
  split; [left; reflexivity |].
  exact (subject_not_empty_and_stripped None january 2026 []
           [practice; game] practice Runs.january_events
           (or_introl eq_refl)).
Defined.

Lemma no_end_without_start_witness :
  In game [practice; game] /\ StartTime game = []
  /\ EndTime game = [] /\ EndDate game = [].
Proof.
  split; [right; left; reflexivity |]. split; [reflexivity |].
  exact (no_end_without_start None january 2026 [] [practice; game] game
           Runs.january_events (or_intror (or_introl eq_refl)) eq_refl).
Defined.

Lemma time_found_iff_leading_digit_witness :
  first_is is_digit (strip (replace endash hyphen (lit "no time here")))
  = false
  /\ parse_time_range (lit "no time here") = inr (None, None).
Proof.
  split; [reflexivity |].
  exact (proj1 (time_found_iff_leading_digit (lit "no time here")) eq_refl).
Defined.

Lemma time_range_ignores_letter_case_witness :
  lower (lit "10AM-11Pm") = lower (lit "10am-11pm")
  /\ parse_time_range (lit "10AM-11Pm") = parse_time_range (lit "10am-11pm").
Proof.
  split; [reflexivity |].
  exact (time_range_ignores_letter_case (lit "10AM-11Pm") (lit "10am-11pm")
           eq_refl).
Defined.

Lemma twelve_hour_conversion_one_to_one_witness :
  0 <= convert_hour 12 (Some (lit "AM")) <= 23
  /\ (lower (lit "AM") = lit "am" -> convert_hour 12 (Some (lit "AM")) <= 11)
  /\ (lower (lit "AM") = lit "pm" -> 12 <= convert_hour 12 (Some (lit "AM")))
  /\ (convert_hour 12 (Some (lit "AM")) = convert_hour 12 (Some (lit "pm")) ->
      12 = 12 /\ lower (lit "AM") = lower (lit "pm")).
Proof.
  exact (twelve_hour_conversion_one_to_one 12 12 (lit "AM") (lit "pm")
           ltac:(lia) ltac:(lia) (or_introl eq_refl) (or_intror eq_refl)).
Defined.

Lemma to_24h_clock_time_witness :
  time_text (lit "7") 7 0
  /\ exists t24,
      to_24h (lit "7") (Some (lit "pm")) = inr t24
      /\ is_clock_time t24 = true.
Proof.
  assert (H : time_text (lit "7") 7 0)
    by exact (hour_only _ _ (one_digit 55%N 7%N eq_refl eq_refl)).
  split; [exact H |].
  apply (to_24h_clock_time (lit "7") 7 0 (Some (lit "pm")) H); [lia |].
  right. exists (lit "pm"). split; [reflexivity |]. split; [lia |].
  right. reflexivity.
Defined.

Lemma header_day_and_warning_witness :
  day_header (lit "0 Mon") 0 []
  /\ exists m,
      header_month (Some 4) (last_day init_state) 0 = inr (Some m)
      /\ exists st',
          loop_body 2026 (Some 4) init_state (lit "0 Mon")
          = ([ShowWarning m 0 2026 (day_after_28th 2026 m)], inr st')
          /\ current_date st' = Some (day_after_28th 2026 m)
          /\ last_day st' = Some 0.
Proof.
  split; [exact header_0_mon |].
  destruct (header_day_and_warning 2026 4 init_state (lit "0 Mon") 0 []
              header_0_mon) as (m & Hm & _ & _ & _ & _ & Hbad);
    [lia | lia |].
  exists m. split; [exact Hm |]. exact (Hbad (or_introl eq_refl)).
Defined.

Lemma trailing_text_as_next_line_witness :
  skipped (lit "Practice") = false
  /\ match_day_header (lit "Practice") = None
  /\ loop_body 2026 (Some 1) init_state (lit "23 Mon Practice")
     = (st1 <- loop_body 2026 (Some 1) init_state (lit "23 Mon") ;;
        loop_body 2026 (Some 1) st1 (lit "Practice")).
Proof.
  split; [reflexivity |]. split; [reflexivity |].
  exact (trailing_text_as_next_line 2026 (Some 1) init_state
           (lit "23 Mon Practice") (lit "23 Mon") 23 (lit "Practice")
           header_23_mon_practice header_23_mon eq_refl eq_refl).
Defined.


Lemma subject_characters_witness :
  In practice [practice; game]
  /\ (forall c, In c (Subject practice) ->
                 In c january /\ is_linebreak c = false)
  /\ ~ In bullet (Subject practice).
Proof.
  split; [left; reflexivity |].
  exact (subject_characters None january 2026 [] [practice; game] practice
           Runs.january_events (or_introl eq_refl)).
Defined.

Lemma date_and_time_characters_witness :
  In practice [practice; game]
  /\ (forall c,
        In c (StartDate practice ++ StartTime practice
              ++ EndDate practice ++ EndTime practice) ->
        (47 <= c <= 58)%N)
  /\ (AllDayEvent practice = lit "True"
      \/ AllDayEvent practice = lit "False").
Proof.
  split; [left; reflexivity |].
  exact (date_and_time_characters None january 2026 [] [practice; game]
           practice Runs.january_events (or_introl eq_refl)).
Defined.

Lemma csv_row_of_event_witness :
  In practice [practice; game]
  /\ csv_row (event_values practice)
     = lit "Practice,01/23/2026,10:00,01/23/2026,11:00,False,,"
       ++ [CR; LF].
Proof.
  split; [left; reflexivity |].
  exact (csv_row_of_event None january 2026 [] [practice; game] practice
           Runs.january_events (or_introl eq_refl)).
Defined.

Lemma one_line_per_event_witness :
  parse_schedule None january 2026 = ([], inr [practice; game])
  /\ count_char LF (csv_text [practice; game]) = 3%nat
  /\ count_char LF (preview_text [practice; game]) = 2%nat.
Proof.
  split; [exact Runs.january_events |].
  exact (one_line_per_event None january 2026 [] [practice; game]
           Runs.january_events).
Defined.

Lemma file_written_only_after_preview_witness :
  In (WriteCsv (csv_text [practice; game]))
    (fst (generate_csv ascii_isdigit willing january (lit "2026") None true))
  /\ ascii_isdigit (lit "2026") = true
  /\ exists y log evs,
      py_int (lit "2026") = inr y
      /\ parse_schedule None january y = (log, inr evs)
      /\ evs <> [] /\ csv_text [practice; game] = csv_text evs.
Proof.
  assert (H : In (WriteCsv (csv_text [practice; game]))
                (fst (generate_csv ascii_isdigit willing january
                        (lit "2026") None true)))
    by (vm_compute; do 3 right; left; reflexivity).
  split; [exact H |].
  destruct (file_written_only_after_preview ascii_isdigit willing january
              (lit "2026") None true _ H) as (Hd & _ & Hrest).
  split; [exact Hd | exact Hrest].
Defined.

Lemma no_header_no_file_witness :
  ascii_isdigit (lit "2026") = true
  /\ generate_csv ascii_isdigit willing
       (text_of_lines [[]; lit "* note"; lit "hello"]) (lit "2026") None true
     = ([Parsing AskInteger; ShowError (lit "No events found")], inr tt).
Proof.
  split; [reflexivity |].
  refine (no_header_no_file ascii_isdigit willing
            (text_of_lines [[]; lit "* note"; lit "hello"]) (lit "2026")
            2026 None true [] [lit "* note"; lit "hello"]
            eq_refl eq_refl eq_refl _).
  intros line [<- | [<- | [<- | []]]]; reflexivity.
Defined.

Lemma generate_csv_returns_witness :
  py_int (lit "2026") = inr 2026
  /\ encodable (lit "Jan 2026" ++ [LF] ++ lit "23 Mon Practice")
  /\ exists log,
      generate_csv ascii_isdigit willing
        ((lit "Jan 2026" ++ [LF] ++ lit "23 Mon Practice") ++ [LF])
        (lit "2026") None true
      = (log, inr tt).
Proof.
  assert (Henc : encodable (lit "Jan 2026" ++ [LF] ++ lit "23 Mon Practice"))
    by (apply encodable_forallb; reflexivity).
  split; [reflexivity |]. split; [exact Henc |].
  refine (generate_csv_returns ascii_isdigit willing
            (lit "Jan 2026" ++ [LF] ++ lit "23 Mon Practice") (lit "2026")
            2026 None true eq_refl eq_refl _ _ _).
  - lia.
  - intros first rest Hlines Hnone. exfalso.
    vm_compute in Hlines. inversion Hlines; subst.
    vm_compute in Hnone. discriminate.
  - intros _. split; [reflexivity | exact Henc].
Defined.

Lemma all_day_event_keeps_text_witness :
  first_is is_digit (strip (lit " Game 7pm ")) = false
  /\ add_item (mkdate 2026 1 24) [] (lit " Game 7pm ") = ([], inr [game]).
Proof.
  split; [reflexivity |].
  exact (all_day_event_keeps_text (mkdate 2026 1 24) [] (lit " Game 7pm ")
           eq_refl eq_refl).
Defined.

End Cases.
